(** * Rubric scoring engine: a shallow embedding of [scoring/*.py]

    The development follows the Python package file by file:
    - [Py]: the few Python primitives the scorers rely on ([str.lower],
      [str.strip], [str.find], [in], [round], [min]/[max]);
    - [Rubric]: the rubric dictionary, as a tree of records whose fields are
      optional (a key of the JSON object may be absent);
    - the leaf scorers of [grammar.py], [vocabulary.py], [sentiment.py],
      [semantic.py] and [preprocess.py];
    - the criterion scorers and [compute_scores] of [scorer.py].

    Python floats are modelled by exact rationals ([Q], compared with [==]);
    transcripts are ASCII strings.  The external NLP collaborators (tokenizer,
    grammar checker, sentiment analyser, sentence embedder) are Section
    variables: the engine only sees their results.

    What the model idealises, and where the program can differ from it:
    - arithmetic is exact, the program's is IEEE double.  A value that sits
      on a threshold or on a rounding tie in exact arithmetic can fall on
      either side in doubles (7 issues per 100 words give the ratio 3/10
      here and 0.29999999999999993 there), and a rubric integer beyond the
      double range makes [float(..)] raise [OverflowError] in the program.
      The statements about rounded values therefore use [rounded_to], which
      leaves the direction of a tie open;
    - the tokenizers, the grammar checker and the sentiment analyser are
      total functions: an exception of theirs, which the program would
      propagate, has no counterpart here (the embedder may raise);
    - [lower] and [isspace] are the ASCII parts of [str.lower] and
      [str.strip]. *)

From Stdlib Require Import QArith Qround Qminmax Lqa.
From Stdlib Require Import String Ascii.
From stdpp Require Import base option list sorting gmap strings.

Local Open Scope Q_scope.
Local Open Scope string_scope.
Local Open Scope list_scope.

(* ===================================================================== *)
(** * Python primitives *)
(* ===================================================================== *)

Module Py.

(** ** Exceptions and fallible results *)

Inductive exn : Type :=
| KeyError (key : string)
| ZeroDivisionError
| FileNotFoundError (path : string)
| ProviderError.

Inductive result (A : Type) : Type :=
| Ok (a : A)
| Raise (e : exn).
Arguments Ok {A} a.
Arguments Raise {A} e.

Definition bind {A B} (r : result A) (k : A -> result B) : result B :=
  match r with
  | Ok a => k a
  | Raise e => Raise e
  end.

Definition of_option {A} (e : exn) (o : option A) : result A :=
  match o with
  | Some a => Ok a
  | None => Raise e
  end.

(** [d.get(k, default)] on an optional field. *)
Definition get {A} (o : option A) (dflt : A) : A :=
  match o with
  | Some a => a
  | None => dflt
  end.

(** [d[k]] on an optional field: raises [KeyError] when it is absent. *)
Definition item {A} (o : option A) (k : string) : result A :=
  of_option (KeyError k) o.

(** ** Strings *)

Definition lower_ascii (c : ascii) : ascii :=
  let n := N_of_ascii c in
  if ((65 <=? n) && (n <=? 90))%N then ascii_of_N (n + 32) else c.

(** [s.lower()], on ASCII letters; other characters are left as they are. *)
Fixpoint lower (s : string) : string :=
  match s with
  | EmptyString => EmptyString
  | String c s' => String (lower_ascii c) (lower s')
  end.

(** The ASCII characters [str.strip()] removes; the Unicode whitespace
    beyond them is not part of the model. *)
Definition isspace (c : ascii) : bool :=
  let n := N_of_ascii c in
  (((9 <=? n) && (n <=? 13)) || ((28 <=? n) && (n <=? 32)))%N.

Fixpoint lstrip (s : string) : string :=
  match s with
  | EmptyString => EmptyString
  | String c s' => if isspace c then lstrip s' else s
  end.

Definition rev_string (s : string) : string :=
  string_of_list_ascii (rev (list_ascii_of_string s)).

Definition rstrip (s : string) : string :=
  rev_string (lstrip (rev_string s)).

(** [s.strip()] *)
Definition strip (s : string) : string := rstrip (lstrip s).

(** [s.find(sub)]: the lowest index at which [sub] occurs in [s], or [-1]. *)
Definition find (s sub : string) : Z :=
  match String.index 0 sub s with
  | Some n => Z.of_nat n
  | None => (-1)%Z
  end.

(** [sub in s] *)
Definition contains (sub s : string) : bool :=
  match String.index 0 sub s with
  | Some _ => true
  | None => false
  end.

(** [any(kw in txt for kw in kws)] *)
Definition any_in (kws : list string) (txt : string) : bool :=
  existsb (fun kw => contains kw txt) kws.

(** ** Numbers *)

Definition of_nat (n : nat) : Q := inject_Z (Z.of_nat n).

Definition Qleb (x y : Q) : bool := Qle_bool x y.
Definition Qltb (x y : Q) : bool := negb (Qle_bool y x).

(** Round half to even, to an integer. *)
Definition round_half_even (x : Q) : Z :=
  let f := Qfloor x in
  match Qcompare (x - inject_Z f) (1 # 2) with
  | Lt => f
  | Gt => (f + 1)%Z
  | Eq => if Z.even f then f else (f + 1)%Z
  end.

(** [round(x, ndigits)]: round half to even on the exact value.  The
    program rounds the double it computed, which can sit on the other side
    of a tie: the statements on rounded values use [rounded_to] instead of
    this function's choice. *)
Definition round (x : Q) (ndigits : nat) : Q :=
  let scale := inject_Z (10 ^ Z.of_nat ndigits) in
  inject_Z (round_half_even (x * scale)) / scale.

End Py.

Import Py.

#[global] Instance result_ret : MRet result := @Ok.
#[global] Instance result_bind : MBind result := fun A B k r => Py.bind r k.
#[global] Instance result_fmap : FMap result :=
  fun A B f r => Py.bind r (fun a => Ok (f a)).

(* ===================================================================== *)
(** * The rubric dictionary *)
(* ===================================================================== *)

(** Every key of the rubric may be absent; [Py.get o d] reads it with a
    default as [dict.get] does, and the empty dictionary [{}] of each shape
    is its [Empty] instance. *)
Module Rubric.

Record tier := Tier
  { tier_keywords : option (list string); tier_score : option Q }.
Record salutation_rules := SalutationRules
  { excellent : option tier; good : option tier;
    normal : option tier; no_salutation : option tier }.
Record salutation := Salutation
  { sal_rules : option salutation_rules; sal_weight : option Q }.

Record keyword_group := KeywordGroup
  { kg_keywords : option (list string); score_each : option Q }.
Record keyword_presence := KeywordPresence
  { must_have : option keyword_group; good_to_have : option keyword_group;
    kw_weight : option Q }.

Record correct_order := CorrectOrder
  { order : option (list string); order_score : option Q }.
Record flow_rules := FlowRules { correct_order_rule : option correct_order }.
Record flow := Flow { fl_rules : option flow_rules }.

Record content_and_structure := ContentAndStructure
  { cs_weight : option Q;
    cs_salutation : option salutation;
    cs_keyword_presence : option keyword_presence;
    cs_flow : option flow }.

Record bucket := Bucket { bucket_score : option Q }.
Record speech_rules := SpeechRules
  { too_fast : option bucket; fast : option bucket; ideal : option bucket;
    slow : option bucket; too_slow : option bucket }.
Record speech_rate := SpeechRate
  { sr_weight : option Q; sr_rules : option speech_rules }.

Record weighted := Weighted { weight : option Q }.
Record language_and_grammar := LanguageAndGrammar
  { lang_weight : option Q;
    grammar : option weighted; vocabulary : option weighted }.

(** The keys ["0-3"], ["4-6"], ["7-9"], ["10-12"] and ["13+"]. *)
Record filler_scoring := FillerScoring
  { f_0_3 : option Q; f_4_6 : option Q; f_7_9 : option Q;
    f_10_12 : option Q; f_13_plus : option Q }.
Record filler_words := FillerWords { scoring : option filler_scoring }.
Record clarity := Clarity
  { clarity_weight : option Q; cl_filler_words : option filler_words }.

Record engagement := Engagement { engagement_weight : option Q }.

Record t := Make
  { content_and_structure_ : option content_and_structure;
    speech_rate_ : option speech_rate;
    language_and_grammar_ : option language_and_grammar;
    clarity_ : option clarity;
    engagement_ : option engagement }.

#[global] Instance tier_empty : Empty tier := Tier None None.
#[global] Instance salutation_rules_empty : Empty salutation_rules :=
  SalutationRules None None None None.
#[global] Instance salutation_empty : Empty salutation := Salutation None None.
#[global] Instance keyword_group_empty : Empty keyword_group :=
  KeywordGroup None None.
#[global] Instance keyword_presence_empty : Empty keyword_presence :=
  KeywordPresence None None None.
#[global] Instance correct_order_empty : Empty correct_order :=
  CorrectOrder None None.
#[global] Instance flow_rules_empty : Empty flow_rules := FlowRules None.
#[global] Instance flow_empty : Empty flow := Flow None.
#[global] Instance content_and_structure_empty : Empty content_and_structure :=
  ContentAndStructure None None None None.
#[global] Instance bucket_empty : Empty bucket := Bucket None.
#[global] Instance speech_rules_empty : Empty speech_rules :=
  SpeechRules None None None None None.
#[global] Instance speech_rate_empty : Empty speech_rate := SpeechRate None None.
#[global] Instance weighted_empty : Empty weighted := Weighted None.
#[global] Instance language_and_grammar_empty : Empty language_and_grammar :=
  LanguageAndGrammar None None None.
#[global] Instance filler_scoring_empty : Empty filler_scoring :=
  FillerScoring None None None None None.
#[global] Instance filler_words_empty : Empty filler_words := FillerWords None.
#[global] Instance clarity_empty : Empty clarity := Clarity None None.
#[global] Instance engagement_empty : Empty engagement := Engagement None.
#[global] Instance t_empty : Empty t := Make None None None None None.

End Rubric.

(* ===================================================================== *)
(** * The score report *)
(* ===================================================================== *)

(** The five branches of the speech-rate mapping; the feedback message starts
    with the branch's label. *)
Inductive RateBucket := TooFast | Fast | Ideal | Slow | TooSlow.

Definition rate_label (b : RateBucket) : string :=
  match b with
  | TooFast => "Too fast"
  | Fast => "Fast"
  | Ideal => "Ideal"
  | Slow => "Slow"
  | TooSlow => "Too slow"
  end.

Inductive SemMsg :=
| SemanticMatch (sim : Q)      (* "Semantic match detected (avg similarity ..)" *)
| SemanticWeak (sim : Q)       (* "Semantic match weak (avg similarity ..)" *)
| SufficientMatches.           (* "Sufficient exact keyword matches." *)

(** Feedback messages.  The messages that format a number carry the number
    instead of its decimal rendering. *)
Inductive Feedback :=
| Text (s : string)
| KeywordFeedback (found : list string) (sem : SemMsg)
| RateFeedback (b : RateBucket) (wpm : Q)
| FillerFeedback (filler_count : nat) (rate_percent : Q)
| PolarityFeedback (polarity : Q).

Inductive Extra :=
| NoExtra
| Found (kws : list string)
| Errors (n : nat)
| Ttr (ttr : Q)
| FillerCount (n : nat).

(** [{"raw": .., "max": .., "feedback": .., <extra>}] *)
Record CriterionResult := mkCriterion
  { raw : Q; max : Q; feedback : option Feedback; extra : Extra }.

(** A top-level component: composite ones carry [subscores], [raw_sum] and
    [max_sum], the others their own [raw] and [max].  The report's
    [feedback_summary], a rendering of the feedbacks below as text, is not
    part of the model. *)
Inductive Component :=
| Composite (weight : Q) (subscores : list (string * CriterionResult))
            (raw_sum max_sum fraction contribution : Q)
| Simple (weight : Q) (res : CriterionResult) (fraction contribution : Q).

Record ScoreReport := mkReport
  { word_count : nat;
    sentence_count : nat;
    duration_seconds : option Q;
    components : list (string * Component);
    total_weight : Q;
    weighted_score_sum : Q;
    overall_score : Q }.

(* ===================================================================== *)
(** * The scorers *)
(* ===================================================================== *)

(** ** scorer.py: helpers *)

(** [_normalize(subscore, max_score)] *)
Definition _normalize (subscore max_score : Q) : Q :=
  if Qleb max_score 0 then 0
  else Qmax 0 (Qmin 1 (subscore / max_score)).

(** [_map_range_score(value, ranges)], with [ranges] a list of
    [(low_inclusive, high_inclusive, score)]. *)
Fixpoint _map_range_score (value : Q) (ranges : list (Q * Q * Q)) : Q :=
  match ranges with
  | [] => 0
  | (low, high, score) :: ranges =>
    if Qleb low value && Qleb value high then score
    else _map_range_score value ranges
  end.

(** ** vocabulary.py *)

Definition ratio_bucket (r : Q) : Q :=
  if Qleb (9 # 10) r then 10
  else if Qleb (7 # 10) r then 8
  else if Qleb (5 # 10) r then 6
  else if Qleb (3 # 10) r then 4
  else 2.

Definition vocabulary_score (words : list string) : Q * Q :=
  if decide (length words = 0%nat) then (10, 1)
  else
    let distinct := size (list_to_set words : gset string) in
    let ttr := of_nat distinct / of_nat (length words) in
    (ratio_bucket ttr, ttr).

(** ** preprocess.py *)

Definition FILLER_WORDS : list string :=
  ["um"; "uh"; "like"; "you know"; "so"; "actually"; "basically";
   "right"; "i mean"; "well"; "kinda"; "sort of"; "okay"; "hmm"; "ah"].

Definition clean_text (text : string) : string := strip (lower text).

Definition count_filler_words (words : list string) : nat :=
  length (filter (fun w => w ∈ FILLER_WORDS) words).

Section Engine.

(** The external collaborators. *)
Variable word_tokenize : string -> list string.
Variable sent_tokenize : string -> list string.
(** [len(tool.check(text))] *)
Variable tool_check : string -> nat.
(** [analyzer.polarity_scores(text)['pos']] *)
Variable polarity_pos : string -> Q.
(** [model.encode] and [util.pytorch_cos_sim]; either may raise. *)
Variable embedding : Type.
Variable encode : string -> result embedding.
Variable pytorch_cos_sim : embedding -> embedding -> result Q.
(** [load_rubric()]: the contents of [rubric.json]. *)
Variable load_rubric : result Rubric.t.

Definition get_word_count (text : string) : nat * list string :=
  let words := word_tokenize text in (length words, words).

Definition get_sentence_count (text : string) : nat :=
  length (sent_tokenize text).

(** ** grammar.py *)

(** The ratio is exact here and a double in the program; on a threshold
    the two can pick neighbouring scores. *)
Definition grammar_score (text : string) (total_words : nat) : Q * nat :=
  let errors := tool_check text in
  if decide (total_words = 0%nat) then (10, 0%nat)
  else
    let errors_per_100 := (of_nat errors / of_nat total_words) * 100 in
    let score_ratio := 1 - Qmin (errors_per_100 / 10) 1 in
    (ratio_bucket score_ratio, errors).

(** ** sentiment.py *)

Definition sentiment_score (text : string) : Q * Q :=
  let polarity := polarity_pos text in
  let score :=
    if Qleb (9 # 10) polarity then 15
    else if Qleb (7 # 10) polarity then 12
    else if Qleb (5 # 10) polarity then 9
    else if Qleb (3 # 10) polarity then 6
    else 3 in
  (score, polarity).

(** ** semantic.py *)

(** The average is exact here and a double in the program
    ([sum([0.7, 0.7, 0.7]) / 3] is [0.6999999999999998] there). *)
Definition Qsum (l : list Q) : Q := foldr Qplus 0 l.

Definition semantic_similarity (text : string) (target_phrases : list string)
  : result Q :=
  text_emb ← encode text;
  scores ← mapM (fun phrase =>
                   phrase_emb ← encode phrase;
                   pytorch_cos_sim text_emb phrase_emb) target_phrases;
  if decide (length scores = 0%nat) then Raise ZeroDivisionError
  else Ok (Qsum scores / of_nat (length scores)).

(** ** scorer.py: criterion scorers *)

(** [float(sal_score)] is the identity on the model's numbers; on a rubric
    integer beyond the double range the program raises [OverflowError]. *)
Definition score_salutation (text : string) (rubric_salutation : Rubric.salutation)
  : result (Q * string) :=
  let txt := lower text in
  let rules := get (Rubric.sal_rules rubric_salutation) ∅ in
  let tier_matches (t : option Rubric.tier) :=
    any_in (get (Rubric.tier_keywords (get t ∅)) []) txt in
  if tier_matches (Rubric.excellent rules) then
    t ← item (Rubric.excellent rules) "excellent";
    sal_score ← item (Rubric.tier_score t) "score";
    Ok (sal_score, "Excellent salutation found (e.g., 'excited to introduce').")
  else if tier_matches (Rubric.good rules) then
    t ← item (Rubric.good rules) "good";
    sal_score ← item (Rubric.tier_score t) "score";
    Ok (sal_score, "Good salutation found (e.g., 'good morning', 'hello everyone').")
  else if tier_matches (Rubric.normal rules) then
    t ← item (Rubric.normal rules) "normal";
    sal_score ← item (Rubric.tier_score t) "score";
    Ok (sal_score, "Normal salutation found (e.g., 'hi', 'hello').")
  else
    Ok (get (Rubric.tier_score (get (Rubric.no_salutation rules) ∅)) 0,
        "No clear salutation detected.").

(** One of the two [for kw in ...] loops of [score_keyword_presence]: the
    state is [(found, raw_score)]. *)
Definition match_keywords (wordset : gset string) (text_lower : string)
    (kws : list string) (each : Q) (st : list string * Q) : list string * Q :=
  foldl (fun '(found, raw_score) kw =>
           if contains " " kw then
             if contains kw text_lower
             then (found ++ [kw], raw_score + each)
             else (found, raw_score)
           else
             if bool_decide (kw ∈ wordset)
             then (found ++ [kw], raw_score + each)
             else (found, raw_score))
        st kws.

Definition score_keyword_presence (words : list string) (text : string)
    (rubric_kw : Rubric.keyword_presence) : Q * list string * Feedback :=
  let must_have := get (Rubric.must_have rubric_kw) ∅ in
  let good_to_have := get (Rubric.good_to_have rubric_kw) ∅ in
  let mw := get (Rubric.kg_keywords must_have) [] in
  let gw := get (Rubric.kg_keywords good_to_have) [] in
  let wordset : gset string := list_to_set words in
  let text_lower := lower text in
  let st := match_keywords wordset text_lower mw
              (get (Rubric.score_each must_have) 4) ([], 0) in
  let '(found, raw_score) :=
    match_keywords wordset text_lower gw
      (get (Rubric.score_each good_to_have) 2) st in
  if decide (length found < Nat.max 1 (length mw `div` 2))%nat then
    let target_phrases := mw ++ gw in
    let sim := match semantic_similarity text target_phrases with
               | Ok sim => sim
               | Raise _ => 0
               end in
    if Qleb (6 # 10) sim then
      let bonus :=
        (5 # 10) * Qsum (map (fun _ => get (Rubric.score_each must_have) 4) mw) in
      let found := found ++ ["semantic-match"] in
      (raw_score + bonus, found, KeywordFeedback found (SemanticMatch sim))
    else
      (raw_score, found, KeywordFeedback found (SemanticWeak sim))
  else
    (raw_score, found, KeywordFeedback found SufficientMatches).

Definition indicators : list (string * list string) :=
  [("salutation", ["hello"; "hi"; "good morning"; "good afternoon";
                   "good evening"; "good day"; "excited to introduce"]);
   ("basic_details", ["my name is"; "i am"; "i'm"; "age"; "years old";
                      "class"; "grade"; "school"; "studying in"; "student of"]);
   ("optional_details", ["family"; "parents"; "father"; "mother"; "hobby";
                         "hobbies"; "interest"; "like to"; "ambition"; "goal";
                         "dream"; "strength"; "weakness"; "achievement";
                         "fun fact"]);
   ("closing", ["thank you"; "thanks"; "that's all"; "bye"])].

(** [min(pos_list) if pos_list else None] *)
Definition min_or_none (pos_list : list Z) : option Z :=
  match pos_list with
  | [] => None
  | p :: ps => Some (foldl Z.min p ps)
  end.

(** The first occurrence of any indicator of a category. *)
Definition first_position (text_l : string) (tokens : list string) : option Z :=
  min_or_none
    (filter (fun p => p ≠ (-1)%Z) (map (fun tok => find text_l tok) tokens)).

Definition flow_positions (text_l : string) : gmap string (option Z) :=
  foldl (fun positions '(key, tokens) =>
           <[key := first_position text_l tokens]> positions)
        ∅ indicators.

(** The [for item in order_spec] loop: the found categories with their
    positions, in target order. *)
Definition flow_seq (positions : gmap string (option Z))
    (order_spec : list string) : list (string * Z) :=
  foldl (fun seq item =>
           match mjoin (positions !! item) with
           | Some pos => seq ++ [(item, pos)]
           | None => seq
           end) [] order_spec.

(** [all(seq[i][1] <= seq[i+1][1] for i in range(len(seq)-1))] *)
Definition in_order (seq : list (string * Z)) : bool :=
  forallb (fun i =>
             match seq !! i, seq !! S i with
             | Some a, Some b => (a.2 <=? b.2)%Z
             | _, _ => false
             end)
          (List.seq 0 (length seq - 1))%nat.

Definition score_flow (text : string) (rubric_flow : Rubric.flow) : Q * string :=
  let co := get (Rubric.correct_order_rule (get (Rubric.fl_rules rubric_flow) ∅)) ∅ in
  let order_spec := get (Rubric.order co) [] in
  let text_l := lower text in
  let positions := flow_positions text_l in
  let seq := flow_seq positions order_spec in
  let is_correct :=
    if decide (length seq < 2)%nat then false else in_order seq in
  let score := if is_correct then get (Rubric.order_score co) 5 else 0 in
  let feedback :=
    if is_correct then "Order follows recommended flow."
    else "Order does not follow the recommended flow (Salutation -> Basic Details -> Optional Details -> Closing)." in
  (score, feedback).

Definition score_speech_rate (word_count : nat) (duration_seconds : option Q)
    (rubric_sr : Rubric.speech_rate) : Q * Feedback :=
  let rules := get (Rubric.sr_rules rubric_sr) ∅ in
  let neutral :=
    (get (Rubric.bucket_score (get (Rubric.ideal rules) ∅)) 10 / 2,
     Text "Duration not provided; speech rate estimated as neutral.") in
  match duration_seconds with
  | None => neutral
  | Some d =>
    if Qeq_bool d 0 || Qleb d 0 || bool_decide (word_count = 0%nat) then neutral
    else
      let wpm := (of_nat word_count / d) * 60 in
      let bucket_of (b : option Rubric.bucket) (dflt : Q) :=
        get (Rubric.bucket_score (get b ∅)) dflt in
      if Qltb 161 wpm then
        (bucket_of (Rubric.too_fast rules) 2, RateFeedback TooFast wpm)
      else if Qleb 141 wpm && Qleb wpm 160 then
        (bucket_of (Rubric.fast rules) 6, RateFeedback Fast wpm)
      else if Qleb 111 wpm && Qleb wpm 140 then
        (bucket_of (Rubric.ideal rules) 10, RateFeedback Ideal wpm)
      else if Qleb 81 wpm && Qleb wpm 110 then
        (bucket_of (Rubric.slow rules) 6, RateFeedback Slow wpm)
      else
        (bucket_of (Rubric.too_slow rules) 2, RateFeedback TooSlow wpm)
  end.

Definition score_filler_words (filler_count total_words : nat)
    (rubric_clarity : Rubric.clarity) : Q * Feedback :=
  let scoring :=
    get (Rubric.scoring (get (Rubric.cl_filler_words rubric_clarity) ∅)) ∅ in
  if decide (total_words = 0%nat) then
    (get (Rubric.f_0_3 scoring) 15, Text "No words.")
  else
    let rate_percent := (of_nat filler_count / of_nat total_words) * 100 in
    let fc := filler_count in
    let score :=
      if decide (fc ≤ 3)%nat then get (Rubric.f_0_3 scoring) 15
      else if decide (4 ≤ fc ≤ 6)%nat then get (Rubric.f_4_6 scoring) 12
      else if decide (7 ≤ fc ≤ 9)%nat then get (Rubric.f_7_9 scoring) 9
      else if decide (10 ≤ fc ≤ 12)%nat then get (Rubric.f_10_12 scoring) 6
      else get (Rubric.f_13_plus scoring) 3 in
    (score, FillerFeedback filler_count rate_percent).

(** ** scorer.py: the aggregator *)

Definition compute_scores (transcript : string) (duration_seconds : option Q)
    (rubric : option Rubric.t) : result ScoreReport :=
  rubric ← match rubric with
           | Some r => Ok r
           | None => load_rubric
           end;
  let text := clean_text transcript in
  let '(word_count, words) := get_word_count text in
  let sentence_count := get_sentence_count text in
  let filler_count := count_filler_words words in
  let total_weight := 0 in
  let weighted_score_sum := 0 in

  (* Content & Structure *)
  let cs := get (Rubric.content_and_structure_ rubric) ∅ in
  let cs_weight := get (Rubric.cs_weight cs) 0 in
  let total_weight := total_weight + cs_weight in
  let rubric_sal := get (Rubric.cs_salutation cs) ∅ in
  '(sal_score_raw, sal_feedback) ← score_salutation transcript rubric_sal;
  let sal :=
    mkCriterion sal_score_raw (get (Rubric.sal_weight rubric_sal) 5)
                (Some (Text sal_feedback)) NoExtra in
  let rubric_kw := get (Rubric.cs_keyword_presence cs) ∅ in
  let '(kw_raw, found_kws, kw_feedback) :=
    score_keyword_presence words text rubric_kw in
  let kw_max := get (Rubric.kw_weight rubric_kw) 30 in
  let kw_raw_clipped := Qmin kw_raw kw_max in
  let kw := mkCriterion kw_raw_clipped kw_max (Some kw_feedback) (Found found_kws) in
  let rubric_flow := get (Rubric.cs_flow cs) ∅ in
  let '(flow_raw, flow_feedback) := score_flow text rubric_flow in
  let flow_max :=
    get (Rubric.order_score
           (get (Rubric.correct_order_rule (get (Rubric.fl_rules rubric_flow) ∅)) ∅))
        5 in
  let flow := mkCriterion flow_raw flow_max (Some (Text flow_feedback)) NoExtra in
  let cs_raw_sum := raw sal + raw kw + raw flow in
  let cs_max_sum := max sal + max kw + max flow in
  let cs_fraction := _normalize cs_raw_sum cs_max_sum in
  let cs_contribution := cs_fraction * cs_weight in
  let weighted_score_sum := weighted_score_sum + cs_contribution in
  let c_cs :=
    Composite cs_weight
      [("salutation", sal); ("keyword_presence", kw); ("flow", flow)]
      cs_raw_sum cs_max_sum (round cs_fraction 4) (round cs_contribution 3) in

  (* Speech Rate *)
  let sr := get (Rubric.speech_rate_ rubric) ∅ in
  let sr_weight := get (Rubric.sr_weight sr) 0 in
  let total_weight := total_weight + sr_weight in
  let '(sr_score_raw, sr_feedback) :=
    score_speech_rate word_count duration_seconds sr in
  let sr_fraction := _normalize sr_score_raw 10 in
  let sr_contribution := sr_fraction * sr_weight in
  let weighted_score_sum := weighted_score_sum + sr_contribution in
  let c_sr :=
    Simple sr_weight (mkCriterion sr_score_raw 10 (Some sr_feedback) NoExtra)
           (round sr_fraction 4) (round sr_contribution 3) in

  (* Language & Grammar *)
  let lang := get (Rubric.language_and_grammar_ rubric) ∅ in
  let lang_weight := get (Rubric.lang_weight lang) 0 in
  let total_weight := total_weight + lang_weight in
  let '(gram_score_raw, gram_errors) := grammar_score transcript word_count in
  let gram_max := get (Rubric.weight (get (Rubric.grammar lang) ∅)) 10 in
  let gram := mkCriterion gram_score_raw gram_max None (Errors gram_errors) in
  let '(vocab_score_raw, ttr_val) := vocabulary_score words in
  let vocab_max := get (Rubric.weight (get (Rubric.vocabulary lang) ∅)) 10 in
  let vocab := mkCriterion vocab_score_raw vocab_max None (Ttr (round ttr_val 3)) in
  let lang_raw_sum := raw gram + raw vocab in
  let lang_max_sum := max gram + max vocab in
  let lang_fraction := _normalize lang_raw_sum lang_max_sum in
  let lang_contribution := lang_fraction * lang_weight in
  let weighted_score_sum := weighted_score_sum + lang_contribution in
  let c_lang :=
    Composite lang_weight [("grammar", gram); ("vocabulary", vocab)]
      lang_raw_sum lang_max_sum (round lang_fraction 4) (round lang_contribution 3) in

  (* Clarity *)
  let clarity := get (Rubric.clarity_ rubric) ∅ in
  let clarity_weight := get (Rubric.clarity_weight clarity) 0 in
  let total_weight := total_weight + clarity_weight in
  let '(filler_score_raw, filler_feedback) :=
    score_filler_words filler_count word_count clarity in
  let filler_max := 15 in
  let filler_fraction := _normalize filler_score_raw filler_max in
  let filler_contribution := filler_fraction * clarity_weight in
  let weighted_score_sum := weighted_score_sum + filler_contribution in
  let c_clarity :=
    Simple clarity_weight
           (mkCriterion filler_score_raw filler_max (Some filler_feedback)
                        (FillerCount filler_count))
           (round filler_fraction 4) (round filler_contribution 3) in

  (* Engagement *)
  let engagement := get (Rubric.engagement_ rubric) ∅ in
  let engagement_weight := get (Rubric.engagement_weight engagement) 0 in
  let total_weight := total_weight + engagement_weight in
  let '(sent_score_raw, polarity) := sentiment_score transcript in
  let sent_max := 15 in
  let sent_fraction := _normalize sent_score_raw sent_max in
  let sent_contribution := sent_fraction * engagement_weight in
  let weighted_score_sum := weighted_score_sum + sent_contribution in
  let c_engagement :=
    Simple engagement_weight
           (mkCriterion sent_score_raw sent_max
                        (Some (PolarityFeedback polarity)) NoExtra)
           (round sent_fraction 4) (round sent_contribution 3) in

  (* Final overall normalization to 0-100 *)
  let overall_pct :=
    if Qleb total_weight 0 then 0
    else
      let overall_frac := weighted_score_sum / total_weight in
      round (overall_frac * 100) 2 in
  Ok (mkReport word_count sentence_count duration_seconds
        [("content_and_structure", c_cs); ("speech_rate", c_sr);
         ("language_and_grammar", c_lang); ("clarity", c_clarity);
         ("engagement", c_engagement)]
        total_weight (round weighted_score_sum 3) overall_pct).

End Engine.

(* ===================================================================== *)
(** * Reading a report *)
(* ===================================================================== *)

Definition comp_weight (c : Component) : Q :=
  match c with
  | Composite w _ _ _ _ _ => w
  | Simple w _ _ _ => w
  end.

(** The raw score a component is normalized from: [raw_sum], or [raw]. *)
Definition comp_raw (c : Component) : Q :=
  match c with
  | Composite _ _ raw_sum _ _ _ => raw_sum
  | Simple _ res _ _ => raw res
  end.



(** Every [{"raw", "max"}] record of a component: its sub-criteria, or itself. *)
Definition comp_results (c : Component) : list (string * CriterionResult) :=
  match c with
  | Composite _ subs _ _ _ _ => subs
  | Simple _ res _ _ => [("", res)]
  end.


(** Lookup of a sub-criterion, as [report["components"][c]["subscores"][s]]. *)
Definition assoc {A} (k : string) (l : list (string * A)) : option A :=
  snd <$> List.find (fun p => bool_decide (p.1 = k)) l.

Definition subscore (r : ScoreReport) (c s : string) : option CriterionResult :=
  comp ← assoc c (components r);
  assoc s (comp_results comp).

(** The ["filler_count"] entry of the clarity component. *)
Definition filler_count_of (r : ScoreReport) : option nat :=
  match assoc "clarity" (components r) with
  | Some (Simple _ res _ _) =>
    match extra res with
    | FillerCount n => Some n
    | _ => None
    end
  | _ => None
  end.

(** [Σ weight], and [Σ weight * fraction] with the fraction each component is
    normalized to. *)
Definition weight_sum (cs : list (string * Component)) : Q :=
  Qsum (map (fun p => comp_weight p.2) cs).


(* ===================================================================== *)
(** * The specification's wording of the rules *)
(* ===================================================================== *)

(** Substrings: [sub] occurs in [s] at index [p], that is
    [s[p : p + len(sub)] == sub]. *)
Definition occurs_at (sub s : string) (p : nat) : Prop :=
  substring p (String.length sub) s = sub.





(** Speech rate: the neutral score, half of the ideal bucket's score. *)
Definition neutral_rate_score (rubric_sr : Rubric.speech_rate) : Q :=
  get (Rubric.bucket_score
         (get (Rubric.ideal (get (Rubric.sr_rules rubric_sr) ∅)) ∅)) 10 / 2.

(** Keyword presence: the test one keyword goes through - a keyword with a
    space is searched in the lowercased text, any other among the tokens. *)
Definition keyword_matched (words : list string) (text_lower kw : string) : bool :=
  if contains " " kw then contains kw text_lower else bool_decide (kw ∈ words).

(** Keyword presence: what the two exact-match loops leave in
    [(found, raw_score)] before the semantic fallback is considered. *)
Definition exact_matches (words : list string) (text : string)
    (rubric_kw : Rubric.keyword_presence) : list string * Q :=
  let must_have := get (Rubric.must_have rubric_kw) ∅ in
  let good_to_have := get (Rubric.good_to_have rubric_kw) ∅ in
  let wordset : gset string := list_to_set words in
  match_keywords wordset (lower text)
    (get (Rubric.kg_keywords good_to_have) [])
    (get (Rubric.score_each good_to_have) 2)
    (match_keywords wordset (lower text)
       (get (Rubric.kg_keywords must_have) [])
       (get (Rubric.score_each must_have) 4) ([], 0)).

(** The fallback is considered when fewer than [max(1, len(mw) // 2)]
    keywords matched. *)
Definition few_matches (found : list string) (mw : list string) : Prop :=
  (length found < Nat.max 1 (length mw `div` 2))%nat.


#[global] Instance few_matches_dec found mw : Decision (few_matches found mw) :=
  decide (length found < Nat.max 1 (length mw `div` 2))%nat.


(** Salutation: the tiers in strict priority order, and the first of them
    whose keyword list has a substring match in the lowercased text. *)
Definition tiers_by_priority (rules : Rubric.salutation_rules)
  : list (option Rubric.tier) :=
  [Rubric.excellent rules; Rubric.good rules; Rubric.normal rules].

Definition tier_has_match (txt : string) (t : option Rubric.tier) : bool :=
  match t with
  | Some t => match Rubric.tier_keywords t with
              | Some kws => existsb (fun kw => contains kw txt) kws
              | None => false
              end
  | None => false
  end.

Definition winning_tier (txt : string) (rules : Rubric.salutation_rules)
  : option Rubric.tier :=
  mjoin (List.find (tier_has_match txt) (tiers_by_priority rules)).

(** Flow: [p] is the earliest position at which any indicator phrase occurs. *)
Definition earliest_occurrence (text_l : string) (tokens : list string) (p : Z)
  : Prop :=
  (∃ tok, tok ∈ tokens ∧ find text_l tok = p ∧ p ≠ (-1)%Z) ∧
  (∀ tok, tok ∈ tokens → find text_l tok ≠ (-1)%Z → (p <= find text_l tok)%Z).

(** The categories of the target order that were found, with their position,
    in target order. *)
Definition found_categories (text_l : string) (order_spec : list string)
  : list (string * Z) :=
  omap (fun item =>
          tokens ← assoc item indicators;
          pos ← first_position text_l tokens;
          Some (item, pos))
       order_spec.

(* ===================================================================== *)
(** * Deterministic stand-ins for the collaborators *)
(* ===================================================================== *)

(** Stand-ins with fixed answers, used to run the engine on concrete
    transcripts: a whitespace tokenizer, a grammar checker that finds no
    error, a sentiment analyser that sees no positive word, and a sentence
    embedder that is either unavailable or scores every phrase [sim]. *)
Module Doubles.

Fixpoint split_ws (acc : string) (s : string) : list string :=
  match s with
  | EmptyString => if decide (acc = "") then [] else [rev_string acc]
  | String c s' =>
    if isspace c
    then (if decide (acc = "") then split_ws "" s'
          else rev_string acc :: split_ws "" s')
    else split_ws (String c acc) s'
  end.

Definition word_tokenize (text : string) : list string := split_ws "" text.
Definition sent_tokenize (text : string) : list string :=
  if decide (text = "") then [] else [text].
Definition tool_check (text : string) : nat := 0.
Definition polarity_pos (text : string) : Q := 0.
Definition encode_down (text : string) : result unit := Raise ProviderError.
Definition encode_up (text : string) : result unit := Ok tt.
Definition cos_sim (sim : Q) (a b : unit) : result Q := Ok sim.
Definition no_rubric_file : result Rubric.t :=
  Raise (FileNotFoundError "rubric.json").

(** A complete rubric of the expected shape. *)
Definition sample_salutation : Rubric.salutation :=
  Rubric.Salutation
    (Some (Rubric.SalutationRules
             (Some (Rubric.Tier (Some ["excited to introduce"; "feeling great"]) (Some 5)))
             (Some (Rubric.Tier (Some ["good morning"; "good afternoon";
                                       "good evening"; "hello everyone"]) (Some 4)))
             (Some (Rubric.Tier (Some ["hi"; "hello"]) (Some 2)))
             (Some (Rubric.Tier None (Some 0)))))
    (Some 5).

Definition sample_keywords : Rubric.keyword_presence :=
  Rubric.KeywordPresence
    (Some (Rubric.KeywordGroup
             (Some ["name"; "age"; "school"; "family"; "hobbies"]) (Some 4)))
    (Some (Rubric.KeywordGroup
             (Some ["ambition"; "fun fact"; "strengths"]) (Some 2)))
    (Some 30).

Definition sample_flow : Rubric.flow :=
  Rubric.Flow
    (Some (Rubric.FlowRules
             (Some (Rubric.CorrectOrder
                      (Some ["salutation"; "basic_details";
                             "optional_details"; "closing"])
                      (Some 5))))).

Definition sample_speech_rate : Rubric.speech_rate :=
  Rubric.SpeechRate (Some 10)
    (Some (Rubric.SpeechRules
             (Some (Rubric.Bucket (Some 2))) (Some (Rubric.Bucket (Some 6)))
             (Some (Rubric.Bucket (Some 10))) (Some (Rubric.Bucket (Some 6)))
             (Some (Rubric.Bucket (Some 2))))).

Definition sample_rubric : Rubric.t :=
  Rubric.Make
    (Some (Rubric.ContentAndStructure (Some 40) (Some sample_salutation)
             (Some sample_keywords) (Some sample_flow)))
    (Some sample_speech_rate)
    (Some (Rubric.LanguageAndGrammar (Some 20)
             (Some (Rubric.Weighted (Some 10))) (Some (Rubric.Weighted (Some 10)))))
    (Some (Rubric.Clarity (Some 15)
             (Some (Rubric.FillerWords
                      (Some (Rubric.FillerScoring (Some 15) (Some 12) (Some 9)
                                                  (Some 6) (Some 3)))))))
    (Some (Rubric.Engagement (Some 15))).

(** Partial rubrics. *)
Definition rubric_tier_without_score : Rubric.t :=
  Rubric.Make
    (Some (Rubric.ContentAndStructure (Some 40)
             (Some (Rubric.Salutation
                      (Some (Rubric.SalutationRules None None
                               (Some (Rubric.Tier (Some ["hi"; "hello"]) None))
                               None))
                      None))
             None None))
    None None None None.

(** A flow rule whose target order lists one category twice. *)
Definition flow_salutation_twice : Rubric.flow :=
  Rubric.Flow
    (Some (Rubric.FlowRules
             (Some (Rubric.CorrectOrder
                      (Some ["salutation"; "salutation"]) (Some 5))))).



Definition transcript : string := "Hello everyone, my name is Alex. Thank you.".
Definition chess : string := "I enjoy chess".

(** The engine with a working embedder that answers [sim]. *)
Definition run (sim : Q) :=
  compute_scores word_tokenize sent_tokenize tool_check polarity_pos
                 unit encode_up (cos_sim sim) no_rubric_file.

(** The engine with the embedder down. *)
Definition run_down :=
  compute_scores word_tokenize sent_tokenize tool_check polarity_pos
                 unit encode_down (cos_sim 0) no_rubric_file.

End Doubles.

(* ===================================================================== *)
(** * Arithmetic of the model *)
(* ===================================================================== *)

Lemma Qleb_le x y : Qleb x y = true <-> x <= y.
Proof. unfold Qleb. apply Qle_bool_iff. Qed.

Lemma Qleb_gt x y : Qleb x y = false <-> y < x.
Proof.
  unfold Qleb. split; intros H.
  - apply Qnot_le_lt. intros Hle. apply Qle_bool_iff in Hle. congruence.
  - destruct (Qle_bool x y) eqn:E; [|reflexivity].
    apply Qle_bool_iff in E. exfalso. apply (Qlt_not_le _ _ H E).
Qed.

Lemma Qltb_lt x y : Qltb x y = true <-> x < y.
Proof.
  unfold Qltb. rewrite negb_true_iff. apply (Qleb_gt y x).
Qed.

Lemma Qltb_ge x y : Qltb x y = false <-> y <= x.
Proof.
  unfold Qltb. rewrite negb_false_iff. apply (Qleb_le y x).
Qed.

Ltac case_Qleb :=
  match goal with
  | |- context [Qleb ?a ?b] =>
    let E := fresh "E" in
    destruct (Qleb a b) eqn:E;
    [apply Qleb_le in E | apply Qleb_gt in E]
  end.


(** [_normalize] is [clamp(raw/max, 0, 1)] when [max > 0], else [0]. *)
Lemma normalize_clamp subscore max_score :
  0 < max_score ->
  _normalize subscore max_score == Qmax 0 (Qmin 1 (subscore / max_score)).
Proof.
  intros H. unfold _normalize. case_Qleb; [lra | reflexivity].
Qed.


(** ** Rounding *)

#[global] Instance round_half_even_proper : Proper (Qeq ==> eq) round_half_even.
Proof.
  intros x y Hxy. unfold round_half_even.
  rewrite (Qfloor_comp _ _ Hxy).
  replace (Qcompare (x - inject_Z (Qfloor y)) (1 # 2))
    with (Qcompare (y - inject_Z (Qfloor y)) (1 # 2)); [reflexivity|].
  apply Qcompare_comp; [rewrite Hxy|]; reflexivity.
Qed.

Lemma round_half_even_lower (a : Z) x :
  inject_Z a <= x -> (a <= round_half_even x)%Z.
Proof.
  intros H. apply Qfloor_resp_le in H. rewrite Qfloor_Z in H.
  unfold round_half_even.
  destruct (Qcompare _ _); [destruct (Z.even _)| |]; lia.
Qed.

Lemma round_half_even_upper (b : Z) x :
  x <= inject_Z b -> (round_half_even x <= b)%Z.
Proof.
  intros H. pose proof (Qfloor_resp_le _ _ H) as Hf. rewrite Qfloor_Z in Hf.
  pose proof (Qfloor_le x) as Hfl.
  unfold round_half_even.
  destruct (Z.eq_dec (Qfloor x) b) as [Heq | Hne].
  - rewrite Heq in *.
    destruct (Qcompare (x - inject_Z b) (1 # 2)) eqn:E.
    + apply Qeq_alt in E. lra.
    + lia.
    + apply Qgt_alt in E. lra.
  - destruct (Qcompare _ _); [destruct (Z.even _)| |]; lia.
Qed.

Lemma scale_pos (n : nat) : 0 < inject_Z (10 ^ Z.of_nat n).
Proof.
  replace 0 with (inject_Z 0) by reflexivity. rewrite <- Zlt_Qlt.
  apply Z.pow_pos_nonneg; lia.
Qed.

#[global] Instance round_proper : Proper (Qeq ==> eq ==> Qeq) round.
Proof.
  intros x y Hxy n ? <-. unfold round.
  assert (Hs : x * inject_Z (10 ^ Z.of_nat n) == y * inject_Z (10 ^ Z.of_nat n))
    by (rewrite Hxy; reflexivity).
  rewrite (round_half_even_proper _ _ Hs). reflexivity.
Qed.

(** Rounding to [n] decimals never leaves an interval with integer ends. *)
Lemma round_between (a b : Z) x n :
  inject_Z a <= x <= inject_Z b ->
  inject_Z a <= round x n <= inject_Z b.
Proof.
  intros [Ha Hb]. unfold round.
  set (s := (10 ^ Z.of_nat n)%Z).
  pose proof (scale_pos n) as Hs. fold s in Hs.
  assert (Hlo : (a * s <= round_half_even (x * inject_Z s))%Z).
  { apply round_half_even_lower. rewrite inject_Z_mult. nra. }
  assert (Hhi : (round_half_even (x * inject_Z s) <= b * s)%Z).
  { apply round_half_even_upper. rewrite inject_Z_mult. nra. }
  rewrite Zle_Qle, inject_Z_mult in Hlo, Hhi.
  split.
  - apply Qle_shift_div_l; [exact Hs | exact Hlo].
  - apply Qle_shift_div_r; [exact Hs | exact Hhi].
Qed.




Lemma round_zero n : round 0 n == 0.
Proof.
  pose proof (round_between 0 0 0 n) as H.
  change (inject_Z 0) with 0 in H. lra.
Qed.

(* ===================================================================== *)
(** * The leaf scorers: grammar, vocabulary, sentiment *)
(* ===================================================================== *)

Lemma ratio_bucket_values r : ratio_bucket r ∈ [2; 4; 6; 8; 10].
Proof.
  unfold ratio_bucket.
  repeat (destruct (Qleb _ r); [set_solver|]). set_solver.
Qed.

(** [len(set(words))] is at most [len(words)], and at least 1 when there is
    a word. *)
Lemma distinct_le_length (words : list string) :
  (size (list_to_set words : gset string) ≤ length words)%nat.
Proof.
  induction words as [|w words IH].
  - rewrite list_to_set_nil, size_empty. reflexivity.
  - rewrite list_to_set_cons, size_union_alt, size_singleton. cbn [length].
    assert (Hsub : (size (list_to_set words ∖ {[w]} : gset string)
                    ≤ size (list_to_set words : gset string))%nat).
    { apply subseteq_size. apply subseteq_difference_l. reflexivity. }
    lia.
Qed.

Lemma distinct_pos (words : list string) :
  words ≠ [] -> (1 ≤ size (list_to_set words : gset string))%nat.
Proof.
  destruct words as [|w words]; [congruence|]. intros _.
  rewrite list_to_set_cons, size_union_alt, size_singleton. lia.
Qed.

Lemma of_nat_le (n m : nat) : (n ≤ m)%nat -> of_nat n <= of_nat m.
Proof. intros H. unfold of_nat. rewrite <- Zle_Qle. lia. Qed.

Lemma of_nat_succ (n : nat) : of_nat (S n) == of_nat n + 1.
Proof.
  unfold of_nat. rewrite Nat2Z.inj_succ, <- Z.add_1_r, inject_Z_plus.
  reflexivity.
Qed.

Lemma of_nat_pos (n : nat) : (0 < n)%nat -> 0 < of_nat n.
Proof.
  intros H. unfold of_nat. replace 0 with (inject_Z 0) by reflexivity.
  rewrite <- Zlt_Qlt. lia.
Qed.

Lemma vocabulary_ttr_range (words : list string) :
  0 < (vocabulary_score words).2 <= 1.
Proof.
  unfold vocabulary_score.
  destruct (decide (length words = 0%nat)) as [|Hne]; simpl; [lra|].
  assert (Hw : words ≠ []) by (intros ->; apply Hne; reflexivity).
  pose proof (of_nat_le _ _ (distinct_le_length words)) as Hle.
  pose proof (of_nat_pos _ (distinct_pos words Hw)) as Hpos.
  assert (Hlen : 0 < of_nat (length words)) by (apply of_nat_pos; lia).
  split.
  - apply Qlt_shift_div_l; [exact Hlen | lra].
  - apply Qle_shift_div_r; [exact Hlen | lra].
Qed.

(** C10. The leaf metric scorers answer from fixed finite sets, whatever the
    rubric: [grammar_score] gives a score in {2,4,6,8,10}, and (10, 0) for
    zero words; [vocabulary_score] gives a score in {2,4,6,8,10} with a
    type-token ratio in (0,1], and (10, 1.0) for an empty word list;
    [sentiment_score] gives a score in {3,6,9,12,15}. *)
Theorem leaf_scores_in_fixed_sets
    (tool_check : string -> nat) (polarity_pos : string -> Q)
    (text : string) (words : list string) (total_words : nat) :
  (grammar_score tool_check text total_words).1 ∈ [2; 4; 6; 8; 10] ∧
  grammar_score tool_check text 0 = (10, 0%nat) ∧
  (vocabulary_score words).1 ∈ [2; 4; 6; 8; 10] ∧
  0 < (vocabulary_score words).2 <= 1 ∧
  vocabulary_score [] = (10, 1) ∧
  (sentiment_score polarity_pos text).1 ∈ [3; 6; 9; 12; 15].
Proof.
  repeat split.
  - unfold grammar_score. destruct (decide _); simpl.
    + set_solver.
    + apply ratio_bucket_values.
  - unfold vocabulary_score. destruct (decide _); simpl.
    + set_solver.
    + apply ratio_bucket_values.
  - apply vocabulary_ttr_range.
  - apply vocabulary_ttr_range.
  - unfold sentiment_score; simpl.
    repeat (destruct (Qleb _ _); [set_solver|]). set_solver.
Qed.

(* ===================================================================== *)
(** * Speech rate *)
(* ===================================================================== *)

(** C9. When the duration is missing, zero or negative, or the word count is
    zero, [score_speech_rate] returns (it cannot raise) exactly half of the
    ideal bucket's configured score, 10/2 = 5 when the rubric configures none,
    with the feedback that the duration was not provided. *)
Theorem speech_rate_neutral_fallback
    (word_count : nat) (duration_seconds : option Q)
    (rubric_sr : Rubric.speech_rate) :
  duration_seconds = None ∨
  (∃ d, duration_seconds = Some d ∧ d <= 0) ∨
  word_count = 0%nat ->
  score_speech_rate word_count duration_seconds rubric_sr =
    (neutral_rate_score rubric_sr,
     Text "Duration not provided; speech rate estimated as neutral.") ∧
  (Rubric.bucket_score
     (get (Rubric.ideal (get (Rubric.sr_rules rubric_sr) ∅)) ∅) = None ->
   neutral_rate_score rubric_sr == 5).
Proof.
  intros H. split.
  - unfold score_speech_rate, neutral_rate_score.
    destruct duration_seconds as [d|]; [|reflexivity].
    destruct H as [H | [(d' & Hd & Hle) | ->]]; [discriminate | |].
    + injection Hd as <-. apply Qleb_le in Hle. rewrite Hle.
      rewrite orb_true_r. reflexivity.
    + rewrite orb_true_r. reflexivity.
  - intros Hnone. unfold neutral_rate_score. rewrite Hnone. reflexivity.
Qed.

Lemma speech_rate_neutral_fallback_witness :
  score_speech_rate 8 (Some 0) ∅ =
    (neutral_rate_score ∅,
     Text "Duration not provided; speech rate estimated as neutral.") ∧
  neutral_rate_score ∅ == 5.
Proof.
  destruct (speech_rate_neutral_fallback 8 (Some 0) ∅) as [H1 H2].
  - right; left. exists 0. split; [reflexivity | discriminate].
  - split; [exact H1 | apply H2; reflexivity].
Defined.

(** The mapping of a computed WPM to a bucket, branch by branch. *)
Lemma speech_rate_buckets (word_count : nat) (d : Q) (rubric_sr : Rubric.speech_rate) :
  0 < d -> word_count ≠ 0%nat ->
  let wpm := (of_nat word_count / d) * 60 in
  let rules := get (Rubric.sr_rules rubric_sr) ∅ in
  let score_of b dflt := get (Rubric.bucket_score (get b ∅)) dflt in
  let res := score_speech_rate word_count (Some d) rubric_sr in
  (161 < wpm -> res = (score_of (Rubric.too_fast rules) 2, RateFeedback TooFast wpm)) ∧
  (141 <= wpm <= 160 -> res = (score_of (Rubric.fast rules) 6, RateFeedback Fast wpm)) ∧
  (111 <= wpm <= 140 -> res = (score_of (Rubric.ideal rules) 10, RateFeedback Ideal wpm)) ∧
  (81 <= wpm <= 110 -> res = (score_of (Rubric.slow rules) 6, RateFeedback Slow wpm)) ∧
  (wpm < 81 -> res = (score_of (Rubric.too_slow rules) 2, RateFeedback TooSlow wpm)) ∧
  (160 < wpm <= 161 -> res = (score_of (Rubric.too_slow rules) 2, RateFeedback TooSlow wpm)).
Proof.
  intros Hd Hwc wpm rules score_of res.
  assert (Hres : res =
    if Qltb 161 wpm then (score_of (Rubric.too_fast rules) 2, RateFeedback TooFast wpm)
    else if Qleb 141 wpm && Qleb wpm 160
         then (score_of (Rubric.fast rules) 6, RateFeedback Fast wpm)
    else if Qleb 111 wpm && Qleb wpm 140
         then (score_of (Rubric.ideal rules) 10, RateFeedback Ideal wpm)
    else if Qleb 81 wpm && Qleb wpm 110
         then (score_of (Rubric.slow rules) 6, RateFeedback Slow wpm)
    else (score_of (Rubric.too_slow rules) 2, RateFeedback TooSlow wpm)).
  { unfold res, score_speech_rate.
    assert (E1 : Qeq_bool d 0 = false).
    { apply not_true_iff_false. intros E. apply Qeq_bool_iff in E. lra. }
    assert (E2 : Qleb d 0 = false) by (apply Qleb_gt; exact Hd).
    rewrite E1, E2, bool_decide_eq_false_2 by exact Hwc. reflexivity. }
  rewrite Hres. clear Hres.
  destruct (Qltb 161 wpm) eqn:E161;
    [apply Qltb_lt in E161 | apply Qltb_ge in E161];
  destruct (Qleb 141 wpm) eqn:E141;
    [apply Qleb_le in E141 | apply Qleb_gt in E141 | apply Qleb_le in E141 | apply Qleb_gt in E141];
  destruct (Qleb wpm 160) eqn:E160;
    try (apply Qleb_le in E160); try (apply Qleb_gt in E160);
  destruct (Qleb 111 wpm) eqn:E111;
    try (apply Qleb_le in E111); try (apply Qleb_gt in E111);
  destruct (Qleb wpm 140) eqn:E140;
    try (apply Qleb_le in E140); try (apply Qleb_gt in E140);
  destruct (Qleb 81 wpm) eqn:E81;
    try (apply Qleb_le in E81); try (apply Qleb_gt in E81);
  destruct (Qleb wpm 110) eqn:E110;
    try (apply Qleb_le in E110); try (apply Qleb_gt in E110);
  simpl; repeat split; intros; try reflexivity; exfalso; lra.
Qed.

(** C3, at the boundary the code misses.  161 words in 60 seconds are exactly
    161 WPM; the branch [wpm > 161] is not taken, no other range contains 161,
    and the final [else] answers with the too_slow score and the "Too slow"
    label.  (140 and 141 WPM do land in ideal and fast: [speech_rate_buckets].) *)
Theorem speech_rate_161_lands_in_too_slow (rubric_sr : Rubric.speech_rate) :
  (of_nat 161 / 60) * 60 == 161 ∧
  score_speech_rate 161 (Some 60) rubric_sr =
    (get (Rubric.bucket_score
            (get (Rubric.too_slow (get (Rubric.sr_rules rubric_sr) ∅)) ∅)) 2,
     RateFeedback TooSlow ((of_nat 161 / 60) * 60)).
Proof. split; reflexivity. Qed.

Example speech_rate_140_is_ideal (rubric_sr : Rubric.speech_rate) :
  (score_speech_rate 140 (Some 60) rubric_sr).2 =
    RateFeedback Ideal ((of_nat 140 / 60) * 60).
Proof. reflexivity. Qed.

Example speech_rate_141_is_fast (rubric_sr : Rubric.speech_rate) :
  (score_speech_rate 141 (Some 60) rubric_sr).2 =
    RateFeedback Fast ((of_nat 141 / 60) * 60).
Proof. reflexivity. Qed.

(* ===================================================================== *)
(** * Substring search *)
(* ===================================================================== *)

Lemma index_none_no_occurrence sub s :
  String.index 0 sub s = None -> forall p, ~ occurs_at sub s p.
Proof.
  intros H p. unfold occurs_at.
  destruct (decide (sub = EmptyString)) as [-> | Hne].
  - apply index_correct4 in H. lia.
  - apply (index_correct3 0 p sub s H Hne). lia.
Qed.

(** [sub in s] holds exactly when [sub] occurs somewhere in [s]. *)
Lemma contains_spec sub s :
  contains sub s = true <-> exists p, occurs_at sub s p.
Proof.
  unfold contains. destruct (String.index 0 sub s) as [m|] eqn:E.
  - split; [intros _ | reflexivity].
    exists m. exact (index_correct1 0 m sub s E).
  - split; [discriminate|]. intros [p Hp].
    exfalso. exact (index_none_no_occurrence sub s E p Hp).
Qed.

(** [s.find(sub)] is [-1] when [sub] does not occur, and otherwise the least
    index at which it occurs. *)
Lemma find_spec s sub :
  (find s sub = (-1)%Z ∧ forall p, ~ occurs_at sub s p) ∨
  (exists p, find s sub = Z.of_nat p ∧ occurs_at sub s p ∧
             forall q, (q < p)%nat -> ~ occurs_at sub s q).
Proof.
  unfold find. destruct (String.index 0 sub s) as [m|] eqn:E.
  - right. exists m. split; [reflexivity|]. split.
    + exact (index_correct1 0 m sub s E).
    + intros q Hq. apply (index_correct2 0 m sub s E q); lia.
  - left. split; [reflexivity|]. apply index_none_no_occurrence. exact E.
Qed.

Lemma contains_find sub s :
  contains sub s = true <-> find s sub ≠ (-1)%Z.
Proof.
  unfold contains, find. destruct (String.index 0 sub s); split; intros H;
    try reflexivity; try discriminate; try lia; congruence.
Qed.

(* ===================================================================== *)
(** * Salutation *)
(* ===================================================================== *)

(** The test the code makes on a tier is the specification's. *)
Lemma tier_matches_eq (txt : string) (t : option Rubric.tier) :
  any_in (get (Rubric.tier_keywords (get t ∅)) []) txt = tier_has_match txt t.
Proof. destruct t as [[[kws|] sc]|]; reflexivity. Qed.

(** A tier matches when one of its keywords occurs in the text. *)
Lemma tier_has_match_spec (txt : string) (t : option Rubric.tier) :
  tier_has_match txt t = true <->
  exists t' kws kw p,
    t = Some t' ∧ Rubric.tier_keywords t' = Some kws ∧ kw ∈ kws ∧ occurs_at kw txt p.
Proof.
  split.
  - destruct t as [[[kws|] sc]|]; simpl; try discriminate.
    intros H. apply existsb_exists in H as (kw & Hin & Hc).
    apply contains_spec in Hc as [p Hp].
    exists (Rubric.Tier (Some kws) sc), kws, kw, p.
    repeat split; [apply list_elem_of_In; exact Hin | exact Hp].
  - intros (t' & kws & kw & p & -> & Hk & Hin & Hp).
    simpl. rewrite Hk. apply existsb_exists. exists kw. split.
    + apply list_elem_of_In. exact Hin.
    + apply contains_spec. exists p. exact Hp.
Qed.

(** C4. [score_salutation] tests the tiers in the order excellent, good,
    normal on the lowercased text and credits the score of the first tier
    one of whose keywords occurs in it (the lookup [rules[tier]["score"]]);
    when no tier matches it credits the no_salutation score, 0 by default.
    The credit is the score of that single tier, never a sum over tiers. *)
Theorem score_salutation_first_matching_tier
    (text : string) (rubric_salutation : Rubric.salutation) :
  let rules := get (Rubric.sal_rules rubric_salutation) ∅ in
  fst <$> score_salutation text rubric_salutation =
    match winning_tier (lower text) rules with
    | Some t => item (Rubric.tier_score t) "score"
    | None => Ok (get (Rubric.tier_score (get (Rubric.no_salutation rules) ∅)) 0)
    end.
Proof.
  intros rules. unfold score_salutation, winning_tier, tiers_by_priority.
  fold rules. cbn [List.find]. rewrite !tier_matches_eq.
  destruct (tier_has_match (lower text) (Rubric.excellent rules)) eqn:Ee.
  { destruct (Rubric.excellent rules) as [t|]; [|discriminate].
    simpl. destruct (Rubric.tier_score t); reflexivity. }
  destruct (tier_has_match (lower text) (Rubric.good rules)) eqn:Eg.
  { destruct (Rubric.good rules) as [t|]; [|discriminate].
    simpl. destruct (Rubric.tier_score t); reflexivity. }
  destruct (tier_has_match (lower text) (Rubric.normal rules)) eqn:En.
  { destruct (Rubric.normal rules) as [t|]; [|discriminate].
    simpl. destruct (Rubric.tier_score t); reflexivity. }
  reflexivity.
Qed.

(** The tier that wins must carry a score: its lookup is [rules[tier]["score"]],
    without a default. *)
Lemma score_salutation_tier_without_score
    (text : string) (rubric_salutation : Rubric.salutation) (t : Rubric.tier) :
  winning_tier (lower text) (get (Rubric.sal_rules rubric_salutation) ∅) = Some t ->
  Rubric.tier_score t = None ->
  score_salutation text rubric_salutation = Raise (KeyError "score").
Proof.
  unfold score_salutation, winning_tier, tiers_by_priority.
  set (rules := get (Rubric.sal_rules rubric_salutation) ∅).
  cbn [List.find]. rewrite !tier_matches_eq.
  destruct (tier_has_match (lower text) (Rubric.excellent rules)) eqn:Ee;
    [|destruct (tier_has_match (lower text) (Rubric.good rules)) eqn:Eg;
      [|destruct (tier_has_match (lower text) (Rubric.normal rules)) eqn:En]];
    simpl; intros Hwin Hscore; try discriminate;
    rewrite Hwin; simpl; rewrite Hscore; reflexivity.
Qed.

(** A greeting that matches the excellent and the normal tier alike is
    credited the excellent score only. *)
Example salutation_no_stacking :
  score_salutation "Hello, I am excited to introduce myself"
                   Doubles.sample_salutation =
    Ok (5, "Excellent salutation found (e.g., 'excited to introduce').").
Proof. reflexivity. Qed.

Example salutation_none :
  score_salutation "My name is Alex" Doubles.sample_salutation =
    Ok (0, "No clear salutation detected.").
Proof. reflexivity. Qed.

(* ===================================================================== *)
(** * Flow *)
(* ===================================================================== *)

(** [min] of a non-empty list, as the left fold the code runs. *)
Lemma foldl_min_spec (ps : list Z) (p : Z) :
  foldl Z.min p ps ∈ p :: ps ∧
  ∀ x, x ∈ p :: ps → (foldl Z.min p ps <= x)%Z.
Proof.
  revert p. induction ps as [|q ps IH]; intros p; simpl.
  - split; [apply list_elem_of_here|].
    intros x Hx. apply list_elem_of_singleton in Hx. lia.
  - destruct (IH (Z.min p q)) as [Hin Hle]. split.
    + apply elem_of_cons in Hin as [Heq | Hin].
      * rewrite Heq. destruct (Z.min_spec p q) as [[_ ->] | [_ ->]].
        -- apply list_elem_of_here.
        -- apply list_elem_of_further, list_elem_of_here.
      * do 2 apply list_elem_of_further. exact Hin.
    + intros x Hx.
      assert (Hm : (foldl Z.min (Z.min p q) ps <= Z.min p q)%Z)
        by (apply Hle; apply list_elem_of_here).
      apply elem_of_cons in Hx as [-> | Hx]; [lia|].
      apply elem_of_cons in Hx as [-> | Hx]; [lia|].
      apply Hle. apply list_elem_of_further. exact Hx.
Qed.

Lemma first_position_some (text_l : string) (tokens : list string) (p : Z) :
  first_position text_l tokens = Some p <-> earliest_occurrence text_l tokens p.
Proof.
  unfold first_position, earliest_occurrence, min_or_none.
  set (found := filter (fun p => p ≠ (-1)%Z) (map (fun tok => find text_l tok) tokens)).
  assert (Hfound : ∀ x, x ∈ found <->
                        x ≠ (-1)%Z ∧ ∃ tok, tok ∈ tokens ∧ find text_l tok = x).
  { intros x. unfold found. rewrite list_elem_of_filter, list_elem_of_fmap.
    split; intros [H1 (tok & H2 & H3)]; (split; [exact H1 | exists tok; auto]). }
  destruct found as [|q qs] eqn:E.
  - split; [discriminate|]. intros [(tok & Hin & Hf & Hne) _].
    exfalso. apply (not_elem_of_nil p). apply Hfound. eauto.
  - destruct (foldl_min_spec qs q) as [Hin Hle]. split.
    + intros [= <-]. apply Hfound in Hin as [Hne (tok & Htok & Hf)]. split.
      * exists tok. auto.
      * intros tok' Hin' Hne'. apply Hle. apply Hfound. eauto.
    + intros [(tok & Htok & Hf & Hne) Hmin]. f_equal.
      apply Hfound in Hin as [Hne' (tok' & Htok' & Hf')].
      assert (H1 : (p <= foldl Z.min q qs)%Z).
      { rewrite <- Hf'. apply Hmin; [exact Htok' | congruence]. }
      assert (H2 : (foldl Z.min q qs <= p)%Z).
      { apply Hle. apply Hfound. eauto. }
      lia.
Qed.

Lemma first_position_none (text_l : string) (tokens : list string) :
  first_position text_l tokens = None <->
  ∀ tok, tok ∈ tokens → find text_l tok = (-1)%Z.
Proof.
  unfold first_position, min_or_none.
  destruct (filter _ _) as [|q qs] eqn:E.
  - split; [|reflexivity]. intros _ tok Hin.
    destruct (decide (find text_l tok = (-1)%Z)) as [|Hne]; [assumption|].
    exfalso. apply (not_elem_of_nil (find text_l tok)). rewrite <- E.
    apply list_elem_of_filter. split; [exact Hne|].
    apply list_elem_of_fmap. eauto.
  - split; [discriminate|]. intros Hall. exfalso.
    assert (Hq : q ∈ q :: qs) by apply list_elem_of_here. rewrite <- E in Hq.
    apply list_elem_of_filter in Hq as [Hne Hq].
    apply list_elem_of_fmap in Hq as (tok & -> & Hin). auto.
Qed.

(** The dictionary [positions] holds, for each category, its first position. *)
Lemma flow_positions_lookup (text_l item : string) :
  mjoin (flow_positions text_l !! item) =
    (tokens ← assoc item indicators; first_position text_l tokens).
Proof.
  unfold flow_positions, indicators, assoc. cbn [foldl List.find fst].
  rewrite !lookup_insert, lookup_empty.
  repeat (case_decide; subst); try reflexivity;
    repeat (case_bool_decide; try congruence); reflexivity.
Qed.

Lemma flow_seq_found (text_l : string) (order_spec : list string) :
  flow_seq (flow_positions text_l) order_spec = found_categories text_l order_spec.
Proof.
  unfold flow_seq, found_categories.
  enough (H : ∀ acc,
    foldl (fun seq item =>
             match mjoin (flow_positions text_l !! item) with
             | Some pos => seq ++ [(item, pos)]
             | None => seq
             end) acc order_spec
    = acc ++ omap (fun item =>
                     tokens ← assoc item indicators;
                     pos ← first_position text_l tokens;
                     Some (item, pos)) order_spec)
    by (rewrite H; reflexivity).
  induction order_spec as [|item rest IH]; intros acc; simpl.
  - rewrite app_nil_r. reflexivity.
  - rewrite IH, flow_positions_lookup.
    destruct (assoc item indicators) as [tokens|]; simpl; [|reflexivity].
    destruct (first_position text_l tokens); simpl; [|reflexivity].
    rewrite <- app_assoc. reflexivity.
Qed.

(** The index loop [all(seq[i][1] <= seq[i+1][1] ...)] compares neighbours. *)
Lemma in_order_adjacent (sq : list (string * Z)) :
  in_order sq = true <->
  ∀ i a b, sq !! i = Some a → sq !! S i = Some b → (a.2 <= b.2)%Z.
Proof.
  unfold in_order. rewrite forallb_forall. split.
  - intros H i a b Ha Hb.
    assert (Hi : In i (List.seq 0 (length sq - 1))).
    { apply in_seq. apply lookup_lt_Some in Hb. lia. }
    specialize (H i Hi). rewrite Ha, Hb in H. apply Z.leb_le. exact H.
  - intros H i Hi. apply in_seq in Hi.
    destruct (lookup_lt_is_Some_2 sq i) as [a Ha]; [lia|].
    destruct (lookup_lt_is_Some_2 sq (S i)) as [b Hb]; [lia|].
    rewrite Ha, Hb. apply Z.leb_le. exact (H i a b Ha Hb).
Qed.

Lemma adjacent_sorted (sq : list (string * Z)) :
  (∀ i a b, sq !! i = Some a → sq !! S i = Some b → (a.2 <= b.2)%Z) <->
  Sorted Z.le sq.*2.
Proof.
  induction sq as [|x sq IH].
  - split; [intros _; constructor | intros _ i a b Ha; discriminate].
  - split.
    + intros H. cbn [fmap list_fmap]. constructor.
      * apply IH. intros i a b Ha Hb. exact (H (S i) a b Ha Hb).
      * destruct sq as [|y sq]; constructor.
        exact (H 0%nat x y eq_refl eq_refl).
    + intros H. cbn [fmap list_fmap] in H.
      apply Sorted_inv in H as [Hs Hhd]. intros [|i] a b Ha Hb.
      * injection Ha as <-. destruct sq as [|y sq]; [discriminate|].
        injection Hb as <-. apply HdRel_inv in Hhd. exact Hhd.
      * exact (proj2 IH Hs i a b Ha Hb).
Qed.

Lemma in_order_sorted (sq : list (string * Z)) :
  in_order sq = bool_decide (Sorted Z.le sq.*2).
Proof.
  destruct (in_order sq) eqn:E; symmetry.
  - apply bool_decide_eq_true. apply adjacent_sorted, in_order_adjacent, E.
  - apply bool_decide_eq_false. intros H.
    pose proof (proj2 (in_order_adjacent sq) (proj2 (adjacent_sorted sq) H)).
    congruence.
Qed.

Lemma found_categories_elem (text_l : string) (order_spec : list string)
    (item : string) (pos : Z) :
  (item, pos) ∈ found_categories text_l order_spec <->
  item ∈ order_spec ∧
  ∃ tokens, assoc item indicators = Some tokens ∧
            earliest_occurrence text_l tokens pos.
Proof.
  unfold found_categories. rewrite list_elem_of_omap. split.
  - intros (it & Hin & Heq).
    destruct (assoc it indicators) as [tokens|] eqn:Ea; [|discriminate].
    simpl in Heq.
    destruct (first_position text_l tokens) as [p|] eqn:Ep; [|discriminate].
    simpl in Heq. injection Heq as -> ->.
    split; [exact Hin|]. exists tokens. split; [exact Ea|].
    apply first_position_some. exact Ep.
  - intros (Hin & tokens & Ea & He). exists item. split; [exact Hin|].
    rewrite Ea. simpl. apply first_position_some in He. rewrite He. reflexivity.
Qed.

(** C8, as the code has it: what is counted are the entries of the target
    order that were found, a category listed twice counting twice.
    [score_flow] locates each category at the earliest position of any of
    its indicator phrases, keeps the entries of the target order whose
    category was found, and its outcome is binary: the configured score (5
    by default) when at least 2 entries were found and their positions are
    non-decreasing in target order, and 0 otherwise - in particular whenever
    fewer than 2 were found. *)
Theorem score_flow_binary (text : string) (rubric_flow : Rubric.flow) :
  let co := get (Rubric.correct_order_rule (get (Rubric.fl_rules rubric_flow) ∅)) ∅ in
  let order_spec := get (Rubric.order co) [] in
  let found := found_categories (lower text) order_spec in
  (∀ item pos,
      (item, pos) ∈ found <->
      item ∈ order_spec ∧
      ∃ tokens, assoc item indicators = Some tokens ∧
                earliest_occurrence (lower text) tokens pos) ∧
  (score_flow text rubric_flow).1 =
    if bool_decide (2 ≤ length found ∧ Sorted Z.le found.*2)%nat
    then get (Rubric.order_score co) 5
    else 0.
Proof.
  intros co order_spec found. split.
  - intros item pos. apply found_categories_elem.
  - unfold score_flow. fold co. fold order_spec.
    rewrite flow_seq_found. fold found. rewrite in_order_sorted.
    destruct (decide (length found < 2)%nat) as [Hlt | Hge].
    + rewrite bool_decide_eq_false_2 by lia. reflexivity.
    + destruct (bool_decide (Sorted Z.le found.*2)) eqn:Es.
      * apply bool_decide_eq_true in Es.
        rewrite bool_decide_eq_true_2 by (split; [lia | exact Es]). reflexivity.
      * apply bool_decide_eq_false in Es.
        rewrite bool_decide_eq_false_2 by (intros [_ H]; exact (Es H)). reflexivity.
Qed.

Example flow_in_order :
  score_flow "hello everyone, my name is alex. thank you." Doubles.sample_flow =
    (5, "Order follows recommended flow.").
Proof. reflexivity. Qed.

Example flow_out_of_order :
  (score_flow "thank you. hello everyone, my name is alex." Doubles.sample_flow).1 = 0.
Proof. reflexivity. Qed.

Example flow_single_category :
  (score_flow "hello everyone" Doubles.sample_flow).1 = 0.
Proof. reflexivity. Qed.

(* ===================================================================== *)
(** * Keyword presence *)
(* ===================================================================== *)

Section KeywordPresence.

Variable embedding : Type.
Variable encode : string -> result embedding.
Variable pytorch_cos_sim : embedding -> embedding -> result Q.

Let similarity := semantic_similarity embedding encode pytorch_cos_sim.
Let score := score_keyword_presence embedding encode pytorch_cos_sim.

(** [score_keyword_presence], with its exact-match stage named. *)
Lemma score_keyword_presence_unfold words text rubric_kw :
  score words text rubric_kw =
    let must_have := get (Rubric.must_have rubric_kw) ∅ in
    let good_to_have := get (Rubric.good_to_have rubric_kw) ∅ in
    let mw := get (Rubric.kg_keywords must_have) [] in
    let gw := get (Rubric.kg_keywords good_to_have) [] in
    let found := (exact_matches words text rubric_kw).1 in
    let raw_score := (exact_matches words text rubric_kw).2 in
    if decide (few_matches found mw) then
      let sim := match similarity text (mw ++ gw) with
                 | Ok sim => sim
                 | Raise _ => 0
                 end in
      if Qleb (6 # 10) sim then
        (raw_score
         + (5 # 10) * Qsum (map (fun _ => get (Rubric.score_each must_have) 4) mw),
         found ++ ["semantic-match"],
         KeywordFeedback (found ++ ["semantic-match"]) (SemanticMatch sim))
      else (raw_score, found, KeywordFeedback found (SemanticWeak sim))
    else (raw_score, found, KeywordFeedback found SufficientMatches).
Proof.
  unfold score, score_keyword_presence, exact_matches, few_matches, similarity.
  cbv zeta. destruct (match_keywords _ _ _ _ _) as [found raw_score].
  reflexivity.
Qed.


(** The provider being unavailable makes [semantic_similarity] raise. *)
Lemma semantic_similarity_encode_raises text phrases e :
  encode text = Raise e -> similarity text phrases = Raise e.
Proof.
  intros H. unfold similarity, semantic_similarity. rewrite H. reflexivity.
Qed.

End KeywordPresence.

(* ===================================================================== *)
(** * The aggregator *)
(* ===================================================================== *)

(** Opens a successful run of [compute_scores]: names the result of every
    scorer and replaces the report by the record the aggregator builds. *)
Ltac open_report :=
  unfold compute_scores;
  cbv beta iota zeta delta [get_word_count mbind result_bind Py.bind];
  destruct (score_salutation _ _) as [[sal_raw sal_fb]|e] eqn:Esal;
    [|discriminate];
  destruct (score_keyword_presence _ _ _ _ _ _) as [[kw_raw found] kw_fb] eqn:Ekw;
  destruct (score_flow _ _) as [flow_raw flow_fb] eqn:Eflow;
  destruct (score_speech_rate _ _ _) as [sr_raw sr_fb] eqn:Esr;
  destruct (grammar_score _ _ _) as [g_raw g_err] eqn:Egram;
  destruct (vocabulary_score _) as [v_raw ttr] eqn:Evocab;
  destruct (score_filler_words _ _ _) as [f_raw f_fb] eqn:Efiller;
  destruct (sentiment_score _ _) as [s_raw pol] eqn:Esent;
  intros [= <-].


Section Aggregator.

Variable word_tokenize : string -> list string.
Variable sent_tokenize : string -> list string.
Variable tool_check : string -> nat.
Variable polarity_pos : string -> Q.
Variable embedding : Type.
Variable encode : string -> result embedding.
Variable pytorch_cos_sim : embedding -> embedding -> result Q.
Variable load_rubric : result Rubric.t.

Let run := compute_scores word_tokenize sent_tokenize tool_check polarity_pos
                          embedding encode pytorch_cos_sim load_rubric.

(** A run without a rubric argument is a run on the rubric that
    [load_rubric()] returns. *)
Lemma compute_scores_loaded transcript duration rubric report :
  run transcript duration rubric = Ok report ->
  ∃ loaded, run transcript duration (Some loaded) = Ok report.
Proof.
  destruct rubric as [r|]; [eauto|].
  unfold run, compute_scores.
  cbv beta iota zeta delta [get_word_count mbind result_bind Py.bind].
  destruct load_rubric as [r|]; [|discriminate].
  intros H. exists r. exact H.
Qed.





(** C6.  On the semantic fallback path, when the similarity provider raises
    the scorer takes the similarity to be 0: it returns the exact-match
    score and keywords with no bonus and no "semantic-match" token, and the
    exception is not propagated - [compute_scores] returns a report, with
    that score clipped, whenever the salutation scorer returns. *)
Theorem similarity_failure_gives_no_credit transcript duration rubric e sal :
  let text := clean_text transcript in
  let words := word_tokenize text in
  let cs := get (Rubric.content_and_structure_ rubric) ∅ in
  let rubric_kw := get (Rubric.cs_keyword_presence cs) ∅ in
  let mw := get (Rubric.kg_keywords (get (Rubric.must_have rubric_kw) ∅)) [] in
  let gw := get (Rubric.kg_keywords (get (Rubric.good_to_have rubric_kw) ∅)) [] in
  let found := (exact_matches words text rubric_kw).1 in
  let raw_score := (exact_matches words text rubric_kw).2 in
  few_matches found mw ->
  semantic_similarity embedding encode pytorch_cos_sim text (mw ++ gw) = Raise e ->
  score_keyword_presence embedding encode pytorch_cos_sim words text rubric_kw =
    (raw_score, found, KeywordFeedback found (SemanticWeak 0)) ∧
  (score_salutation transcript (get (Rubric.cs_salutation cs) ∅) = Ok sal ->
   ∃ report,
     run transcript duration (Some rubric) = Ok report ∧
     subscore report "content_and_structure" "keyword_presence" =
       Some (mkCriterion (Qmin raw_score (get (Rubric.kw_weight rubric_kw) 30))
                         (get (Rubric.kw_weight rubric_kw) 30)
                         (Some (KeywordFeedback found (SemanticWeak 0)))
                         (Found found))).
Proof.
  intros text words cs rubric_kw mw gw found raw_score Hfew Hsim.
  assert (Hkw : score_keyword_presence embedding encode pytorch_cos_sim
                  words text rubric_kw =
                (raw_score, found, KeywordFeedback found (SemanticWeak 0))).
  { rewrite score_keyword_presence_unfold. cbv zeta.
    fold mw gw found raw_score.
    rewrite decide_True by exact Hfew. rewrite Hsim. reflexivity. }
  split; [exact Hkw|]. intros Hsal.
  unfold run, compute_scores.
  cbv beta iota zeta delta [get_word_count mbind result_bind Py.bind].
  fold text. fold words. fold cs. rewrite Hsal. destruct sal as [sal_raw sal_fb].
  fold rubric_kw. rewrite Hkw.
  destruct (score_flow _ _) as [flow_raw flow_fb].
  destruct (score_speech_rate _ _ _) as [sr_raw sr_fb].
  destruct (grammar_score _ _ _) as [g_raw g_err].
  destruct (vocabulary_score _) as [v_raw ttr].
  destruct (score_filler_words _ _ _) as [f_raw f_fb].
  destruct (sentiment_score _ _) as [s_raw pol].
  eexists. split; reflexivity.
Qed.

(** C7, where the code misses.  The normal tier of this rubric has keywords
    but no score; a transcript that greets with "hello" reaches
    [rules["normal"]["score"]], which raises [KeyError] where the
    no_salutation branch would have read [.get("score", 0)]. *)
Theorem tier_without_score_raises duration :
  run "Hello everyone" duration (Some Doubles.rubric_tier_without_score) =
    Raise (KeyError "score").
Proof. reflexivity. Qed.

(** In general: the aggregator raises whenever the winning tier has no score. *)
Lemma compute_scores_tier_without_score transcript duration rubric t :
  let rubric_sal :=
    get (Rubric.cs_salutation (get (Rubric.content_and_structure_ rubric) ∅)) ∅ in
  winning_tier (lower transcript) (get (Rubric.sal_rules rubric_sal) ∅) = Some t ->
  Rubric.tier_score t = None ->
  run transcript duration (Some rubric) = Raise (KeyError "score").
Proof.
  intros rubric_sal Hwin Hscore. unfold run, compute_scores.
  cbv beta iota zeta delta [get_word_count mbind result_bind Py.bind].
  fold rubric_sal.
  rewrite (score_salutation_tier_without_score _ _ t Hwin Hscore). reflexivity.
Qed.

(** An absent top-level criterion counts with weight 0: on the empty rubric
    every weight is 0 and the overall score is 0. *)
Lemma empty_rubric_scores transcript duration :
  ∃ report, run transcript duration (Some ∅) = Ok report ∧
            Forall (fun p => comp_weight p.2 = 0) (components report) ∧
            overall_score report = 0.
Proof.
  unfold run, compute_scores.
  cbv beta iota zeta delta [get_word_count mbind result_bind Py.bind].
  change (score_salutation transcript _)
    with (@Ok (Q * string) (0, "No clear salutation detected.")).
  cbv beta iota.
  destruct (score_keyword_presence _ _ _ _ _ _) as [[kw_raw found] kw_fb].
  destruct (score_flow _ _) as [flow_raw flow_fb].
  destruct (score_speech_rate _ _ _) as [sr_raw sr_fb].
  destruct (grammar_score _ _ _) as [g_raw g_err].
  destruct (vocabulary_score _) as [v_raw ttr].
  destruct (score_filler_words _ _ _) as [f_raw f_fb].
  destruct (sentiment_score _ _) as [s_raw pol].
  eexists. split; [reflexivity|]. split; [|reflexivity].
  cbn [components]. repeat (apply Forall_cons; split; [reflexivity|]).
  apply Forall_nil. exact I.
Qed.

End Aggregator.

(* ===================================================================== *)
(** * The engine on concrete transcripts *)
(* ===================================================================== *)






Lemma similarity_failure_gives_no_credit_witness :
  score_keyword_presence unit Doubles.encode_down (Doubles.cos_sim 0)
    ["i"; "enjoy"; "chess"] "i enjoy chess" Doubles.sample_keywords
    = (0, [], KeywordFeedback [] (SemanticWeak 0)) ∧
  ∃ report,
    Doubles.run_down Doubles.chess (Some 10) (Some Doubles.sample_rubric)
      = Ok report ∧
    subscore report "content_and_structure" "keyword_presence"
      = Some (mkCriterion (Qmin 0 30) 30
                          (Some (KeywordFeedback [] (SemanticWeak 0))) (Found [])).
Proof.
  destruct (similarity_failure_gives_no_credit
              Doubles.word_tokenize Doubles.sent_tokenize Doubles.tool_check
              Doubles.polarity_pos unit Doubles.encode_down (Doubles.cos_sim 0)
              Doubles.no_rubric_file Doubles.chess (Some 10) Doubles.sample_rubric
              ProviderError (0, "No clear salutation detected."))
    as [Hscore Hreport].
  - unfold few_matches. vm_compute. lia.
  - reflexivity.
  - split; [exact Hscore | apply Hreport; reflexivity].
Defined.


(** A target order that lists the salutation twice: on a text with a
    greeting and nothing else one category is found, yet the sequence of
    found entries has length 2 and is in order, and the flow score is the
    configured 5. *)
Lemma one_category_listed_twice_scores :
  let found := found_categories (lower "hello") ["salutation"; "salutation"] in
  found = [("salutation", 0%Z); ("salutation", 0%Z)] ∧
  size (list_to_set found.*1 : gset string) = 1%nat ∧
  (score_flow "hello" Doubles.flow_salutation_twice).1 = 5 ∧
  ~ (score_flow "hello" Doubles.flow_salutation_twice).1 == 0.
Proof.
  cbv zeta. split; [vm_compute; reflexivity|].
  split; [vm_compute; reflexivity|].
  split; [vm_compute; reflexivity|].
  vm_compute. discriminate.
Qed.

(* ===================================================================== *)
(** * Further properties: normalization and range tables *)
(* ===================================================================== *)

(** X1. For a positive maximum, [_normalize] is the plain ratio inside
    [[0, max]] and saturates outside: 0 for a non-positive score, 1 for a
    score at or above the maximum. *)
Theorem normalize_piecewise (subscore max_score : Q) :
  0 < max_score ->
  (0 <= subscore <= max_score -> _normalize subscore max_score == subscore / max_score) ∧
  (subscore <= 0 -> _normalize subscore max_score == 0) ∧
  (max_score <= subscore -> _normalize subscore max_score == 1).
Proof.
  intros Hmax. rewrite (normalize_clamp _ _ Hmax).
  assert (Hdiv : ∀ a b, a <= b -> a / max_score <= b / max_score).
  { intros a b Hab. apply Qle_shift_div_l; [exact Hmax|].
    unfold Qdiv. rewrite <- Qmult_assoc, (Qmult_comm (/ max_score)).
    rewrite Qmult_inv_r by lra. lra. }
  assert (H0 : 0 / max_score == 0) by (unfold Qdiv; ring).
  assert (H1 : max_score / max_score == 1) by (field; lra).
  repeat split.
  - intros [Hlo Hhi].
    pose proof (Hdiv _ _ Hlo) as Ha. pose proof (Hdiv _ _ Hhi) as Hb.
    rewrite H0 in Ha. rewrite H1 in Hb.
    rewrite (Q.min_r _ _ Hb). apply Q.max_r. exact Ha.
  - intros Hle. pose proof (Hdiv _ _ Hle) as Ha. rewrite H0 in Ha.
    apply Q.max_l. apply Q.min_le_iff. right. exact Ha.
  - intros Hge. pose proof (Hdiv _ _ Hge) as Ha. rewrite H1 in Ha.
    rewrite (Q.min_l _ _ Ha). apply Q.max_r. lra.
Qed.

Lemma normalize_piecewise_witness :
  _normalize 23 40 == 23 / 40 ∧ _normalize (-3) 40 == 0 ∧ _normalize 50 40 == 1.
Proof.
  destruct (normalize_piecewise 23 40) as (H1 & _ & _); [reflexivity|].
  destruct (normalize_piecewise (-3) 40) as (_ & H2 & _); [reflexivity|].
  destruct (normalize_piecewise 50 40) as (_ & _ & H3); [reflexivity|].
  split; [apply H1; split; discriminate|].
  split; [apply H2; discriminate | apply H3; discriminate].
Defined.

(** X2. [_normalize] never decreases when the score grows. *)
Theorem normalize_monotone (s1 s2 max_score : Q) :
  s1 <= s2 -> _normalize s1 max_score <= _normalize s2 max_score.
Proof.
  intros Hs. unfold _normalize. case_Qleb; [lra|].
  assert (Hdiv : s1 / max_score <= s2 / max_score).
  { apply Qle_shift_div_l; [exact E|].
    unfold Qdiv. rewrite <- Qmult_assoc, (Qmult_comm (/ max_score)).
    rewrite Qmult_inv_r by lra. lra. }
  apply Q.max_le_compat_l. apply Q.min_le_compat_l. exact Hdiv.
Qed.

Lemma normalize_monotone_witness : _normalize 4 10 <= _normalize 6 10.
Proof. apply normalize_monotone. discriminate. Defined.

(** X3. [_map_range_score] answers with the score of the first range that
    contains the value, whatever follows it, and with 0 when no range
    contains it. *)
Theorem map_range_score_first_match
    (value : Q) (before after : list (Q * Q * Q)) (low high score : Q) :
  Forall (fun r => ~ (r.1.1 <= value <= r.1.2)) before ->
  (low <= value <= high ->
   _map_range_score value (before ++ (low, high, score) :: after) = score) ∧
  _map_range_score value before = 0.
Proof.
  intros Hbefore.
  assert (Hskip : ∀ rest,
    _map_range_score value (before ++ rest) = _map_range_score value rest).
  { intros rest. induction Hbefore as [|[[lo hi] sc] before Hr _ IH]; [reflexivity|].
    cbn [app _map_range_score]. cbn [fst snd] in Hr.
    destruct (Qleb lo value) eqn:E1; [|exact IH].
    destruct (Qleb value hi) eqn:E2; [|exact IH].
    apply Qleb_le in E1, E2. exfalso. apply Hr. split; assumption. }
  split.
  - intros [Hlo Hhi]. rewrite Hskip. cbn [_map_range_score].
    apply Qleb_le in Hlo, Hhi. rewrite Hlo, Hhi. reflexivity.
  - rewrite <- (app_nil_r before). apply Hskip.
Qed.

Lemma map_range_score_first_match_witness :
  _map_range_score 120 [(141, 160, 6); (111, 140, 10); (100, 130, 7)] = 10 ∧
  _map_range_score 120 [(141, 160, 6)] = 0.
Proof.
  destruct (map_range_score_first_match 120 [(141, 160, 6)] [(100, 130, 7)] 111 140 10)
    as [H1 H2].
  - apply Forall_cons. split; [|apply Forall_nil; exact I].
    cbn [fst snd]. intros [H _]. apply H. reflexivity.
  - split; [apply H1; split; discriminate | exact H2].
Defined.

(* ===================================================================== *)
(** * Further properties: filler words *)
(* ===================================================================== *)

(** X4. Clarity is scored on the filler count alone: whenever the bucket
    scores do not increase from "0-3" to "13+" (as the defaults 15, 12, 9, 6,
    3), more filler words never score higher, whatever the two word totals
    are (as long as there are words). *)
Theorem filler_score_count_based_monotone
    (fc1 fc2 total1 total2 : nat) (rubric_clarity : Rubric.clarity) :
  let scoring :=
    get (Rubric.scoring (get (Rubric.cl_filler_words rubric_clarity) ∅)) ∅ in
  get (Rubric.f_4_6 scoring) 12 <= get (Rubric.f_0_3 scoring) 15 ->
  get (Rubric.f_7_9 scoring) 9 <= get (Rubric.f_4_6 scoring) 12 ->
  get (Rubric.f_10_12 scoring) 6 <= get (Rubric.f_7_9 scoring) 9 ->
  get (Rubric.f_13_plus scoring) 3 <= get (Rubric.f_10_12 scoring) 6 ->
  total1 ≠ 0%nat -> total2 ≠ 0%nat -> (fc1 ≤ fc2)%nat ->
  (score_filler_words fc2 total2 rubric_clarity).1
    <= (score_filler_words fc1 total1 rubric_clarity).1.
Proof.
  intros scoring H1 H2 H3 H4 Ht1 Ht2 Hfc. unfold score_filler_words.
  fold scoring.
  rewrite (decide_False (P := total1 = 0%nat)) by exact Ht1.
  rewrite (decide_False (P := total2 = 0%nat)) by exact Ht2.
  cbn [fst].
  repeat (destruct (decide _)); try lia; lra.
Qed.

Lemma filler_score_count_based_monotone_witness :
  (score_filler_words 5 1000 ∅).1 <= (score_filler_words 3 40 ∅).1.
Proof.
  apply filler_score_count_based_monotone;
    first [discriminate | apply Nat.neq_succ_0 | apply Nat.leb_le; reflexivity].
Defined.

Lemma filler_single_token (w : string) :
  contains " " w = false ->
  w ∈ FILLER_WORDS <->
  w ∈ ["um"; "uh"; "like"; "so"; "actually"; "basically"; "right"; "well";
       "kinda"; "okay"; "hmm"; "ah"].
Proof.
  intros Hw. unfold FILLER_WORDS. rewrite !elem_of_cons, !elem_of_nil.
  split; intros H;
    repeat (destruct H as [H | H]; [subst w; try discriminate Hw; tauto|]);
    contradiction.
Qed.

(** X5. The multi-word entries of [FILLER_WORDS] ("you know", "i mean",
    "sort of") are compared with single tokens: on tokens that contain no
    space they are never counted, and the count is that of the twelve
    one-word fillers. *)
Theorem multiword_fillers_never_counted (words : list string) :
  Forall (fun w => contains " " w = false) words ->
  count_filler_words words =
    length (filter (fun w => w ∈ ["um"; "uh"; "like"; "so"; "actually";
                                  "basically"; "right"; "well"; "kinda";
                                  "okay"; "hmm"; "ah"]) words).
Proof.
  unfold count_filler_words. induction 1 as [|w words Hw _ IH]; [reflexivity|].
  rewrite !filter_cons.
  pose proof (filler_single_token w Hw) as Hiff.
  destruct (decide (w ∈ FILLER_WORDS)) as [Hin | Hout].
  - rewrite decide_True by (apply Hiff; exact Hin). cbn [length]. congruence.
  - rewrite decide_False by (intros Hin; apply Hout, Hiff; exact Hin). exact IH.
Qed.

Lemma multiword_fillers_never_counted_witness :
  count_filler_words ["you"; "know"; "um"; "i"; "mean"; "so"] = 2%nat.
Proof.
  rewrite multiword_fillers_never_counted.
  - reflexivity.
  - repeat (apply Forall_cons; split; [reflexivity|]). apply Forall_nil. exact I.
Defined.

(** X6. [count_filler_words] adds up over concatenation, never exceeds the
    number of tokens, and is 0 exactly when no token is a filler word. *)
Theorem count_filler_words_additive (words1 words2 : list string) :
  count_filler_words (words1 ++ words2)
    = (count_filler_words words1 + count_filler_words words2)%nat ∧
  (count_filler_words words1 ≤ length words1)%nat ∧
  (count_filler_words words1 = 0%nat <-> Forall (fun w => w ∉ FILLER_WORDS) words1).
Proof.
  unfold count_filler_words. split; [|split].
  - rewrite filter_app, length_app. reflexivity.
  - apply length_filter.
  - induction words1 as [|w words IH].
    + split; [intros _; apply Forall_nil; exact I | reflexivity].
    + rewrite filter_cons, Forall_cons.
      destruct (decide (w ∈ FILLER_WORDS)) as [Hin | Hout]; cbn [length].
      * split; [discriminate | intros [Hw _]; contradiction].
      * rewrite IH. tauto.
Qed.

(* ===================================================================== *)
(** * Further properties: text cleaning *)
(* ===================================================================== *)

Lemma lower_ascii_idem (c : ascii) : lower_ascii (lower_ascii c) = lower_ascii c.
Proof. destruct c as [[] [] [] [] [] [] [] []]; reflexivity. Qed.

Lemma isspace_lower (c : ascii) : isspace (lower_ascii c) = isspace c.
Proof. destruct c as [[] [] [] [] [] [] [] []]; reflexivity. Qed.

Lemma lower_idem (s : string) : lower (lower s) = lower s.
Proof.
  induction s as [|c s IH]; [reflexivity|].
  cbn [lower]. rewrite lower_ascii_idem, IH. reflexivity.
Qed.

Lemma append_cons (c : ascii) (a b : string) :
  String.append (String c a) b = String c (String.append a b).
Proof. reflexivity. Qed.

Lemma lower_app (a b : string) :
  lower (String.append a b) = String.append (lower a) (lower b).
Proof.
  induction a as [|c a IH]; [reflexivity|].
  cbn [lower]. rewrite !append_cons. cbn [lower]. rewrite IH. reflexivity.
Qed.

Lemma rev_string_cons (c : ascii) (s : string) :
  rev_string (String c s) = String.append (rev_string s) (String c EmptyString).
Proof.
  unfold rev_string. cbn [list_ascii_of_string rev].
  generalize (rev (list_ascii_of_string s)). intros l.
  induction l as [|x l IH]; [reflexivity|].
  cbn [app string_of_list_ascii]. rewrite append_cons, IH. reflexivity.
Qed.

Lemma rev_string_snoc (s : string) (c : ascii) :
  rev_string (String.append s (String c EmptyString)) = String c (rev_string s).
Proof.
  induction s as [|x s IH]; [reflexivity|].
  rewrite append_cons, !rev_string_cons, IH. reflexivity.
Qed.

Lemma rev_string_involutive (s : string) : rev_string (rev_string s) = s.
Proof.
  induction s as [|c s IH]; [reflexivity|].
  rewrite rev_string_cons, rev_string_snoc, IH. reflexivity.
Qed.

Lemma rev_string_lower (s : string) : rev_string (lower s) = lower (rev_string s).
Proof.
  induction s as [|c s IH]; [reflexivity|].
  cbn [lower]. rewrite !rev_string_cons, IH, lower_app. reflexivity.
Qed.

Lemma lstrip_lower (s : string) : lstrip (lower s) = lower (lstrip s).
Proof.
  induction s as [|c s IH]; [reflexivity|].
  cbn [lower lstrip]. rewrite isspace_lower.
  destruct (isspace c); [exact IH | reflexivity].
Qed.

Lemma strip_lower (s : string) : strip (lower s) = lower (strip s).
Proof.
  unfold strip, rstrip.
  rewrite lstrip_lower, rev_string_lower, lstrip_lower, rev_string_lower.
  reflexivity.
Qed.

Lemma lstrip_idem (s : string) : lstrip (lstrip s) = lstrip s.
Proof.
  induction s as [|c s IH]; [reflexivity|].
  cbn [lstrip]. destruct (isspace c) eqn:E; [exact IH|].
  cbn [lstrip]. rewrite E. reflexivity.
Qed.

Lemma lstrip_snoc (s : string) (c : ascii) :
  isspace c = false ->
  lstrip (String.append s (String c EmptyString))
    = String.append (lstrip s) (String c EmptyString).
Proof.
  intros Hc. induction s as [|x s IH].
  - change (String.append EmptyString (String c EmptyString))
      with (String c EmptyString).
    cbn [lstrip]. rewrite Hc. reflexivity.
  - rewrite append_cons. cbn [lstrip].
    destruct (isspace x); [exact IH | reflexivity].
Qed.

(** Trailing whitespace is removed behind a leading non-space character. *)
Lemma rstrip_cons (c : ascii) (s : string) :
  isspace c = false -> rstrip (String c s) = String c (rstrip s).
Proof.
  intros Hc. unfold rstrip.
  rewrite rev_string_cons, (lstrip_snoc _ _ Hc), rev_string_snoc. reflexivity.
Qed.

Lemma lstrip_shorter (s : string) :
  (String.length (lstrip s) ≤ String.length s)%nat.
Proof.
  induction s as [|c s IH]; [reflexivity|].
  cbn [lstrip]. destruct (isspace c); cbn [String.length]; lia.
Qed.

(** A string that [lstrip] leaves alone is empty or starts with a
    non-space character; [rstrip] keeps it so. *)
Lemma lstrip_rstrip_fixed (t : string) :
  lstrip t = t -> lstrip (rstrip t) = rstrip t.
Proof.
  destruct t as [|c t]; [reflexivity|].
  cbn [lstrip]. destruct (isspace c) eqn:E.
  - intros H. pose proof (lstrip_shorter t) as Hlen. rewrite H in Hlen.
    cbn [String.length] in Hlen. lia.
  - intros _. rewrite (rstrip_cons _ _ E). cbn [lstrip]. rewrite E. reflexivity.
Qed.

Lemma rstrip_idem (s : string) : rstrip (rstrip s) = rstrip s.
Proof.
  unfold rstrip. rewrite rev_string_involutive, lstrip_idem. reflexivity.
Qed.

Lemma strip_idem (s : string) : strip (strip s) = strip s.
Proof.
  unfold strip.
  rewrite (lstrip_rstrip_fixed (lstrip s)) by apply lstrip_idem.
  apply rstrip_idem.
Qed.

(** X7. [clean_text] is idempotent, and its result is already lowercase and
    trimmed: the [text.lower()] that [score_keyword_presence] and
    [score_flow] apply to the cleaned text changes nothing. *)
Theorem clean_text_idempotent (text : string) :
  clean_text (clean_text text) = clean_text text ∧
  lower (clean_text text) = clean_text text ∧
  strip (clean_text text) = clean_text text.
Proof.
  assert (Hlower : lower (clean_text text) = clean_text text).
  { unfold clean_text. rewrite <- strip_lower, lower_idem. reflexivity. }
  assert (Hstrip : strip (clean_text text) = clean_text text).
  { unfold clean_text. apply strip_idem. }
  split; [|split; [exact Hlower | exact Hstrip]].
  unfold clean_text at 1. rewrite Hlower. exact Hstrip.
Qed.

Lemma lstrip_empty_iff (s : string) :
  lstrip s = EmptyString <->
  Forall (fun c => isspace c = true) (list_ascii_of_string s).
Proof.
  induction s as [|c s IH]; cbn [lstrip list_ascii_of_string].
  - split; [intros _; apply Forall_nil; exact I | reflexivity].
  - rewrite Forall_cons. destruct (isspace c) eqn:E.
    + rewrite IH. tauto.
    + split; [discriminate | intros [H _]; discriminate].
Qed.

Lemma list_ascii_of_lower (s : string) :
  list_ascii_of_string (lower s) = map lower_ascii (list_ascii_of_string s).
Proof.
  induction s as [|c s IH]; [reflexivity|].
  cbn [lower list_ascii_of_string map]. rewrite IH. reflexivity.
Qed.

(** X8. [clean_text] returns the empty string exactly for the transcripts
    made of whitespace only (the empty one included). *)
Theorem clean_text_empty_iff (text : string) :
  clean_text text = EmptyString <->
  Forall (fun c => isspace c = true) (list_ascii_of_string text).
Proof.
  unfold clean_text, strip.
  assert (Hspace : Forall (fun c => isspace c = true) (list_ascii_of_string (lower text))
                   <-> Forall (fun c => isspace c = true) (list_ascii_of_string text)).
  { rewrite list_ascii_of_lower, Forall_fmap. apply Forall_iff.
    intros c. unfold compose. rewrite isspace_lower. reflexivity. }
  rewrite <- Hspace, <- lstrip_empty_iff.
  destruct (lstrip (lower text)) as [|c t] eqn:E.
  - split; reflexivity.
  - assert (Hc : isspace c = false).
    { pose proof (lstrip_idem (lower text)) as Hid. rewrite E in Hid.
      cbn [lstrip] in Hid. destruct (isspace c) eqn:Ec; [|reflexivity].
      pose proof (lstrip_shorter t) as Hlen. rewrite Hid in Hlen.
      cbn [String.length] in Hlen. lia. }
    rewrite (rstrip_cons _ _ Hc). split; discriminate.
Qed.

(* ===================================================================== *)
(** * Further properties: keyword presence and semantic similarity *)
(* ===================================================================== *)

Lemma match_keywords_cons (words : list string) (text_lower kw : string)
    (kws : list string) (each : Q) (found : list string) (raw_score : Q) :
  match_keywords (list_to_set words) text_lower (kw :: kws) each (found, raw_score)
    = match_keywords (list_to_set words) text_lower kws each
        (if keyword_matched words text_lower kw
         then (found ++ [kw], raw_score + each) else (found, raw_score)).
Proof.
  unfold match_keywords. cbn [foldl]. f_equal. unfold keyword_matched.
  rewrite (bool_decide_ext (kw ∈ (list_to_set words : gset string)) (kw ∈ words))
    by apply elem_of_list_to_set.
  destruct (contains " " kw); reflexivity.
Qed.

Lemma match_keywords_filter (words : list string) (text_lower : string)
    (kws : list string) (each : Q) (found : list string) (raw_score : Q) :
  let hit kw := keyword_matched words text_lower kw = true in
  let res := match_keywords (list_to_set words) text_lower kws each
                            (found, raw_score) in
  res.1 = found ++ filter hit kws ∧
  res.2 == raw_score + each * of_nat (length (filter hit kws)).
Proof.
  intros hit res. unfold res. clear res.
  revert found raw_score. induction kws as [|kw kws IH]; intros found raw_score.
  - cbn [match_keywords foldl filter list_filter length fst snd].
    rewrite app_nil_r.
    split; [reflexivity|]. change (of_nat 0) with 0. ring.
  - rewrite match_keywords_cons, filter_cons.
    destruct (decide (hit kw)) as [Hhit | Hmiss].
    + unfold hit in Hhit. rewrite Hhit.
      destruct (IH (found ++ [kw]) (raw_score + each)) as [H1 H2]. split.
      * rewrite H1, <- app_assoc. reflexivity.
      * rewrite H2. cbn [length]. rewrite of_nat_succ. ring.
    + unfold hit in Hmiss. apply not_true_is_false in Hmiss. rewrite Hmiss.
      apply IH.
Qed.

(** X9. The exact-match stage of [score_keyword_presence] finds the
    must-have keywords that match followed by the good-to-have keywords that
    match, each in rubric order, and scores [score_each] per match: a keyword
    with a space matches as a substring of the lowercased text, any other
    only as a whole token. *)
Theorem exact_matches_filter
    (words : list string) (text : string) (rubric_kw : Rubric.keyword_presence) :
  let must_have := get (Rubric.must_have rubric_kw) ∅ in
  let good_to_have := get (Rubric.good_to_have rubric_kw) ∅ in
  let mw := get (Rubric.kg_keywords must_have) [] in
  let gw := get (Rubric.kg_keywords good_to_have) [] in
  let hit kw := keyword_matched words (lower text) kw = true in
  (exact_matches words text rubric_kw).1 = filter hit mw ++ filter hit gw ∧
  (exact_matches words text rubric_kw).2
    == get (Rubric.score_each must_have) 4 * of_nat (length (filter hit mw))
       + get (Rubric.score_each good_to_have) 2 * of_nat (length (filter hit gw)).
Proof.
  intros must_have good_to_have mw gw hit. unfold exact_matches.
  fold must_have good_to_have. fold mw gw.
  pose proof (match_keywords_filter words (lower text) mw
                (get (Rubric.score_each must_have) 4) [] 0) as Hm.
  cbv zeta in Hm. fold hit in Hm.
  destruct (match_keywords (list_to_set words) (lower text) mw
              (get (Rubric.score_each must_have) 4) ([], 0))
    as [found raw_score].
  cbn [fst snd] in Hm. destruct Hm as [Hf Hr].
  pose proof (match_keywords_filter words (lower text) gw
                (get (Rubric.score_each good_to_have) 2) found raw_score) as Hg.
  cbv zeta in Hg. fold hit in Hg. destruct Hg as [Hf' Hr'].
  split.
  - rewrite Hf', Hf. reflexivity.
  - rewrite Hr', Hr. ring.
Qed.

Section KeywordProviders.

Variable embedding : Type.
Variable encode : string -> result embedding.
Variable pytorch_cos_sim : embedding -> embedding -> result Q.

(** X10. With enough exact matches the similarity provider plays no part:
    the result is the exact-match score and keywords, the same under any
    other provider. *)
Theorem enough_matches_ignore_provider
    (embedding' : Type) (encode' : string -> result embedding')
    (pytorch_cos_sim' : embedding' -> embedding' -> result Q)
    (words : list string) (text : string) (rubric_kw : Rubric.keyword_presence) :
  let mw := get (Rubric.kg_keywords (get (Rubric.must_have rubric_kw) ∅)) [] in
  let found := (exact_matches words text rubric_kw).1 in
  let raw_score := (exact_matches words text rubric_kw).2 in
  ~ few_matches found mw ->
  score_keyword_presence embedding encode pytorch_cos_sim words text rubric_kw
    = (raw_score, found, KeywordFeedback found SufficientMatches) ∧
  score_keyword_presence embedding' encode' pytorch_cos_sim' words text rubric_kw
    = score_keyword_presence embedding encode pytorch_cos_sim words text rubric_kw.
Proof.
  intros mw found raw_score Hmany.
  rewrite !score_keyword_presence_unfold. cbv zeta. fold mw found raw_score.
  rewrite !decide_False by exact Hmany. split; reflexivity.
Qed.

(** The similarity of a text to no phrase at all is a division by zero. *)
Lemma semantic_similarity_no_phrase (text : string) :
  ∃ e, semantic_similarity embedding encode pytorch_cos_sim text [] = Raise e.
Proof.
  unfold semantic_similarity. destruct (encode text) as [emb|e].
  - exists ZeroDivisionError. reflexivity.
  - exists e. reflexivity.
Qed.

(** X11. A rubric that configures no keyword at all gets the keyword score
    0 with nothing found, under every provider: the fallback is entered, the
    similarity to an empty phrase list raises, and the similarity counts as
    0. *)
Theorem no_keywords_scores_zero
    (words : list string) (text : string) (rubric_kw : Rubric.keyword_presence) :
  get (Rubric.kg_keywords (get (Rubric.must_have rubric_kw) ∅)) [] = [] ->
  get (Rubric.kg_keywords (get (Rubric.good_to_have rubric_kw) ∅)) [] = [] ->
  score_keyword_presence embedding encode pytorch_cos_sim words text rubric_kw
    = (0, [], KeywordFeedback [] (SemanticWeak 0)).
Proof.
  intros Hmw Hgw. rewrite score_keyword_presence_unfold. cbv zeta.
  unfold exact_matches. rewrite Hmw, Hgw. cbn [match_keywords foldl fst snd app].
  destruct (semantic_similarity_no_phrase text) as [e He]. rewrite He.
  reflexivity.
Qed.

Lemma mapM_result_ok {A B} (f : A -> result B) (l : list A) (ys : list B) :
  mapM f l = Ok ys -> Forall2 (fun x y => f x = Ok y) l ys.
Proof.
  revert ys. induction l as [|x l IH]; intros ys; cbn [mapM].
  - intros [= <-]. constructor.
  - unfold mbind, result_bind, Py.bind, mret, result_ret.
    destruct (f x) as [y|] eqn:Ex; [|discriminate].
    destruct (mapM f l) as [k|]; [|discriminate].
    intros [= <-]. constructor; [exact Ex | apply IH; reflexivity].
Qed.

(** X12. [semantic_similarity] returns a value only when there is at least
    one phrase and the provider encoded the text, encoded every phrase and
    scored every pair; an empty phrase list or any failure of the provider
    makes it raise. *)
Theorem semantic_similarity_returns_only_if
    (text : string) (target_phrases : list string) (sim : Q) :
  semantic_similarity embedding encode pytorch_cos_sim text target_phrases = Ok sim ->
  target_phrases ≠ [] ∧
  ∃ text_emb,
    encode text = Ok text_emb ∧
    Forall (fun phrase =>
              ∃ phrase_emb s, encode phrase = Ok phrase_emb ∧
                              pytorch_cos_sim text_emb phrase_emb = Ok s)
           target_phrases.
Proof.
  unfold semantic_similarity. intros Hsim.
  unfold mbind, result_bind, Py.bind in Hsim.
  destruct (encode text) as [text_emb|] eqn:Et; [|discriminate].
  destruct (mapM _ target_phrases) as [scores|] eqn:Em; [|discriminate].
  destruct (decide (length scores = 0%nat)) as [|Hlen]; [discriminate|].
  apply mapM_result_ok in Em.
  assert (Hn : length target_phrases = length scores)
    by (eapply Forall2_length; exact Em).
  split; [intros ->; apply Hlen; symmetry; exact Hn|].
  exists text_emb. split; [reflexivity|].
  clear Hn Hlen Hsim.
  induction Em as [|phrase s phrases scores Hs _ IH]; constructor; [|exact IH].
  destruct (encode phrase) as [phrase_emb|]; [|discriminate].
  exists phrase_emb, s. split; [reflexivity | exact Hs].
Qed.

End KeywordProviders.

(* ===================================================================== *)
(** * Further properties: vocabulary, grammar, sentiment *)
(* ===================================================================== *)

Lemma ratio_bucket_monotone (r1 r2 : Q) :
  r1 <= r2 -> ratio_bucket r1 <= ratio_bucket r2.
Proof.
  intros H. unfold ratio_bucket.
  repeat case_Qleb; try lra; discriminate.
Qed.

(** [len(set(words)) == len(words)] exactly when no word is repeated. *)
Lemma distinct_eq_length_iff (words : list string) :
  size (list_to_set words : gset string) = length words <-> NoDup words.
Proof.
  split; [|apply size_list_to_set].
  induction words as [|w words IH]; [intros _; constructor|].
  rewrite list_to_set_cons. cbn [length]. intros Hsize.
  pose proof (distinct_le_length words) as Hle.
  destruct (decide (w ∈ words)) as [Hin | Hout].
  - exfalso.
    assert (Heq : ({[w]} ∪ list_to_set words : gset string) = list_to_set words).
    { apply subseteq_union_1_L. apply singleton_subseteq_l.
      apply elem_of_list_to_set. exact Hin. }
    rewrite Heq in Hsize. lia.
  - constructor; [exact Hout|]. apply IH.
    rewrite size_union, size_singleton in Hsize; [lia|].
    apply disjoint_singleton_l. rewrite elem_of_list_to_set. exact Hout.
Qed.

(** X13. A non-empty word list has type-token ratio 1 exactly when no word
    is repeated, and then the vocabulary score is the top score 10. *)
Theorem vocabulary_all_distinct (words : list string) :
  words ≠ [] ->
  ((vocabulary_score words).2 == 1 <-> NoDup words) ∧
  (NoDup words -> (vocabulary_score words).1 = 10).
Proof.
  intros Hne. unfold vocabulary_score.
  destruct (decide (length words = 0%nat)) as [H0 | Hlen].
  { destruct words; [congruence | discriminate]. }
  cbn [fst snd].
  assert (Hpos : 0 < of_nat (length words)) by (apply of_nat_pos; lia).
  assert (Hiff : of_nat (size (list_to_set words : gset string)) / of_nat (length words) == 1
                 <-> NoDup words).
  { rewrite <- distinct_eq_length_iff. split.
    - intros H.
      assert (Heq : of_nat (size (list_to_set words : gset string))
                    == of_nat (length words)).
      { rewrite <- (Qmult_1_l (of_nat (length words))), <- H. field. lra. }
      unfold of_nat in Heq. apply inject_Z_injective, Nat2Z.inj in Heq. exact Heq.
    - intros ->. field. lra. }
  split; [exact Hiff|].
  intros Hnd. apply Hiff in Hnd. unfold ratio_bucket.
  case_Qleb; [reflexivity | lra].
Qed.

Lemma vocabulary_all_distinct_witness :
  (vocabulary_score ["my"; "name"; "is"; "alex"]).1 = 10 ∧
  ~ (vocabulary_score ["very"; "very"; "good"]).2 == 1.
Proof.
  split.
  - apply (vocabulary_all_distinct ["my"; "name"; "is"; "alex"]);
      [discriminate|]. apply (bool_decide_eq_true_1 _). reflexivity.
  - intros H.
    apply (vocabulary_all_distinct ["very"; "very"; "good"]) in H;
      [|discriminate].
    apply NoDup_cons in H as [Hnot _]. apply Hnot. apply list_elem_of_here.
Defined.

Section GrammarSentiment.

Variables tool_check tool_check' : string -> nat.
Variables polarity_pos polarity_pos' : string -> Q.

(** X14. For transcripts of the same length, the one with more reported
    grammar issues never gets the higher grammar score. *)
Theorem grammar_score_antitone (text text' : string) (total_words : nat) :
  (tool_check text ≤ tool_check' text')%nat ->
  (grammar_score tool_check' text' total_words).1
    <= (grammar_score tool_check text total_words).1.
Proof.
  intros Herr. unfold grammar_score.
  destruct (decide (total_words = 0%nat)) as [|Hn]; cbn [fst]; [lra|].
  apply ratio_bucket_monotone.
  assert (Hpos : 0 < of_nat total_words) by (apply of_nat_pos; lia).
  pose proof (of_nat_le _ _ Herr) as Hle.
  assert (Hdiv : of_nat (tool_check text) / of_nat total_words
                 <= of_nat (tool_check' text') / of_nat total_words).
  { apply Qle_shift_div_l; [exact Hpos|].
    unfold Qdiv. rewrite <- Qmult_assoc, (Qmult_comm (/ of_nat total_words)).
    rewrite Qmult_inv_r by lra. lra. }
  set (a := of_nat (tool_check text) / of_nat total_words) in *.
  set (b := of_nat (tool_check' text') / of_nat total_words) in *.
  clearbody a b.
  assert (Hmin : Qmin (a * 100 / 10) 1 <= Qmin (b * 100 / 10) 1).
  { apply Q.min_le_compat_r.
    assert (E : ∀ x, x * 100 / 10 == x * 10) by (intros x; field).
    rewrite !E. lra. }
  lra.
Qed.

(** X15. The extremes of the grammar score: no reported issue gives 10, and
    one issue per ten words (or more) already gives the minimum, 2. *)
Theorem grammar_score_extremes (text : string) (total_words : nat) :
  total_words ≠ 0%nat ->
  (tool_check text = 0%nat ->
   (grammar_score tool_check text total_words).1 = 10) ∧
  ((total_words ≤ 10 * tool_check text)%nat ->
   (grammar_score tool_check text total_words).1 = 2).
Proof.
  intros Hn. unfold grammar_score.
  rewrite decide_False by exact Hn. cbn [fst].
  assert (Hpos : 0 < of_nat total_words) by (apply of_nat_pos; lia).
  split.
  - intros ->. change (of_nat 0) with 0.
    assert (H0 : 1 - Qmin (0 / of_nat total_words * 100 / 10) 1 == 1).
    { rewrite Q.min_l; [field; lra|]. 
      assert (0 / of_nat total_words * 100 / 10 == 0) by (field; lra). lra. }
    unfold ratio_bucket. case_Qleb; [reflexivity | lra].
  - intros Hmany.
    assert (Hge : of_nat total_words <= 10 * of_nat (tool_check text)).
    { pose proof (of_nat_le _ _ Hmany) as H. unfold of_nat in *.
      rewrite Nat2Z.inj_mul, inject_Z_mult in H. exact H. }
    assert (Hratio : 1 <= of_nat (tool_check text) / of_nat total_words * 100 / 10).
    { assert (Hd : 1 <= 10 * of_nat (tool_check text) / of_nat total_words).
      { apply Qle_shift_div_l; [exact Hpos | lra]. }
      assert (Heq : of_nat (tool_check text) / of_nat total_words * 100 / 10
                    == 10 * of_nat (tool_check text) / of_nat total_words)
        by (field; lra).
      lra. }
    assert (H0 : 1 - Qmin (of_nat (tool_check text) / of_nat total_words * 100 / 10) 1 == 0).
    { rewrite (Q.min_r _ _ Hratio). ring. }
    unfold ratio_bucket. repeat case_Qleb; try lra. reflexivity.
Qed.

(** X16. The sentiment score never decreases with the positive polarity,
    and the polarity is returned unchanged next to it. *)
Theorem sentiment_score_monotone (text text' : string) :
  polarity_pos text <= polarity_pos' text' ->
  (sentiment_score polarity_pos text).1 <= (sentiment_score polarity_pos' text').1 ∧
  (sentiment_score polarity_pos text).2 = polarity_pos text.
Proof.
  intros H. split; [|reflexivity]. unfold sentiment_score. cbn [fst].
  repeat case_Qleb; try lra; discriminate.
Qed.

End GrammarSentiment.

(* ===================================================================== *)
(** * Further properties: speech rate and flow *)
(* ===================================================================== *)

(** The chain of comparisons behind a computed WPM. *)
Lemma score_speech_rate_chain
    (word_count : nat) (d : Q) (rubric_sr : Rubric.speech_rate) :
  0 < d -> word_count ≠ 0%nat ->
  let wpm := (of_nat word_count / d) * 60 in
  (score_speech_rate word_count (Some d) rubric_sr).2 =
    RateFeedback
      (if Qltb 161 wpm then TooFast
       else if Qleb 141 wpm && Qleb wpm 160 then Fast
       else if Qleb 111 wpm && Qleb wpm 140 then Ideal
       else if Qleb 81 wpm && Qleb wpm 110 then Slow
       else TooSlow) wpm.
Proof.
  intros Hd Hwc wpm. unfold score_speech_rate.
  assert (E1 : Qeq_bool d 0 = false).
  { apply not_true_iff_false. intros E. apply Qeq_bool_iff in E. lra. }
  assert (E2 : Qleb d 0 = false) by (apply Qleb_gt; exact Hd).
  rewrite E1, E2, bool_decide_eq_false_2 by exact Hwc.
  cbn [orb]. fold wpm.
  destruct (Qltb 161 wpm); [reflexivity|].
  destruct (Qleb 141 wpm && Qleb wpm 160); [reflexivity|].
  destruct (Qleb 111 wpm && Qleb wpm 140); [reflexivity|].
  destruct (Qleb 81 wpm && Qleb wpm 110); reflexivity.
Qed.

(** X17. With a positive duration and at least one word, the scorer answers
    "Too slow" exactly below 81 WPM and in the three gaps the ranges leave
    open: between 110 and 111, between 140 and 141, and above 160 up to 161
    inclusive. *)
Theorem speech_rate_too_slow_iff
    (word_count : nat) (d : Q) (rubric_sr : Rubric.speech_rate) :
  0 < d -> word_count ≠ 0%nat ->
  let wpm := (of_nat word_count / d) * 60 in
  (score_speech_rate word_count (Some d) rubric_sr).2 = RateFeedback TooSlow wpm <->
  wpm < 81 ∨ 110 < wpm < 111 ∨ 140 < wpm < 141 ∨ 160 < wpm <= 161.
Proof.
  intros Hd Hwc wpm.
  rewrite (score_speech_rate_chain word_count d rubric_sr Hd Hwc).
  cbv zeta. fold wpm. clearbody wpm.
  destruct (Qltb 161 wpm) eqn:E161;
    [apply Qltb_lt in E161 | apply Qltb_ge in E161];
  destruct (Qleb 141 wpm) eqn:E141;
    [apply Qleb_le in E141 | apply Qleb_gt in E141 | apply Qleb_le in E141 | apply Qleb_gt in E141];
  destruct (Qleb wpm 160) eqn:E160;
    try (apply Qleb_le in E160); try (apply Qleb_gt in E160);
  destruct (Qleb 111 wpm) eqn:E111;
    try (apply Qleb_le in E111); try (apply Qleb_gt in E111);
  destruct (Qleb wpm 140) eqn:E140;
    try (apply Qleb_le in E140); try (apply Qleb_gt in E140);
  destruct (Qleb 81 wpm) eqn:E81;
    try (apply Qleb_le in E81); try (apply Qleb_gt in E81);
  destruct (Qleb wpm 110) eqn:E110;
    try (apply Qleb_le in E110); try (apply Qleb_gt in E110);
  cbn [andb]; (split; [intros Hb; try discriminate Hb; try lra | intros Hr; try reflexivity; exfalso; lra]).
Qed.

Lemma speech_rate_too_slow_iff_witness :
  (score_speech_rate 281 (Some 120) ∅).2
    = RateFeedback TooSlow ((of_nat 281 / 120) * 60).
Proof.
  apply speech_rate_too_slow_iff.
  - reflexivity.
  - discriminate.
  - right. right. left. split; reflexivity.
Defined.





(* ===================================================================== *)
(** * Further properties: the aggregator *)
(* ===================================================================== *)

(** X19. [score_salutation] raises [KeyError('score')] exactly when the
    first tier, in the order excellent, good, normal, with a keyword
    occurring in the lowercased text carries no score: a tier without a
    score is harmless as long as an earlier tier wins or none of its
    keywords occurs, and no other missing key of the salutation rules raises
    it. *)
Theorem score_salutation_key_error_iff
    (text : string) (rubric_salutation : Rubric.salutation) :
  score_salutation text rubric_salutation = Raise (KeyError "score") <->
  ∃ t, winning_tier (lower text) (get (Rubric.sal_rules rubric_salutation) ∅) = Some t ∧
       Rubric.tier_score t = None.
Proof.
  split.
  - unfold score_salutation, winning_tier, tiers_by_priority.
    set (rules := get (Rubric.sal_rules rubric_salutation) ∅).
    cbn [List.find]. rewrite !tier_matches_eq.
    destruct (tier_has_match (lower text) (Rubric.excellent rules));
      [|destruct (tier_has_match (lower text) (Rubric.good rules));
        [|destruct (tier_has_match (lower text) (Rubric.normal rules))]].
    + destruct (Rubric.excellent rules) as [t|]; [|discriminate]. cbn.
      destruct (Rubric.tier_score t) eqn:Es; [discriminate|].
      intros _. exists t. split; [reflexivity | exact Es].
    + destruct (Rubric.good rules) as [t|]; [|discriminate]. cbn.
      destruct (Rubric.tier_score t) eqn:Es; [discriminate|].
      intros _. exists t. split; [reflexivity | exact Es].
    + destruct (Rubric.normal rules) as [t|]; [|discriminate]. cbn.
      destruct (Rubric.tier_score t) eqn:Es; [discriminate|].
      intros _. exists t. split; [reflexivity | exact Es].
    + discriminate.
  - intros (t & Hwin & Hscore).
    exact (score_salutation_tier_without_score text rubric_salutation t Hwin Hscore).
Qed.

Section AggregatorProperties.

Variable word_tokenize : string -> list string.
Variable sent_tokenize : string -> list string.
Variable tool_check : string -> nat.
Variable polarity_pos : string -> Q.
Variable embedding : Type.
Variable encode : string -> result embedding.
Variable pytorch_cos_sim : embedding -> embedding -> result Q.
Variable load_rubric : result Rubric.t.

Let run := compute_scores word_tokenize sent_tokenize tool_check polarity_pos
                          embedding encode pytorch_cos_sim load_rubric.

(** X21. The shape of every report: the five components in rubric order;
    the counts of the tokenized, cleaned transcript, with no more filler
    words than words; the duration as given; and, in the two composite
    components, [raw_sum] and [max_sum] equal to the sums over the
    sub-criteria. *)
Theorem report_shape transcript duration rubric report :
  run transcript duration rubric = Ok report ->
  map fst (components report)
    = ["content_and_structure"; "speech_rate"; "language_and_grammar";
       "clarity"; "engagement"] ∧
  word_count report = length (word_tokenize (clean_text transcript)) ∧
  sentence_count report = length (sent_tokenize (clean_text transcript)) ∧
  duration_seconds report = duration ∧
  (∃ n, filler_count_of report = Some n ∧ (n ≤ word_count report)%nat) ∧
  Forall (fun p =>
            match p.2 with
            | Composite _ subs raw_sum max_sum _ _ =>
              raw_sum == Qsum (map (fun s => raw s.2) subs) ∧
              max_sum == Qsum (map (fun s => max s.2) subs)
            | Simple _ _ _ _ => True
            end)
         (components report).
Proof.
  intros H. apply compute_scores_loaded in H as [loaded H]. revert H.
  unfold run. open_report.
  cbn [components word_count sentence_count duration_seconds map fst].
  repeat split.
  - eexists. split; [reflexivity|].
    unfold count_filler_words. apply length_filter.
  - repeat (apply Forall_cons; split;
            [cbn [snd map raw max Qsum foldr]; try exact I; split; ring|]).
    apply Forall_nil. exact I.
Qed.

(** X22. A transcript that tokenizes to no word at all gets the zero-word
    fallbacks, whatever the duration: word count 0, the neutral speech-rate
    score, grammar 10, vocabulary 10, and the top filler bucket. *)
Theorem no_words_fallbacks transcript duration rubric report :
  word_tokenize (clean_text transcript) = [] ->
  run transcript duration (Some rubric) = Ok report ->
  word_count report = 0%nat ∧
  comp_raw <$> assoc "speech_rate" (components report)
    = Some (neutral_rate_score (get (Rubric.speech_rate_ rubric) ∅)) ∧
  raw <$> subscore report "language_and_grammar" "grammar" = Some 10 ∧
  raw <$> subscore report "language_and_grammar" "vocabulary" = Some 10 ∧
  comp_raw <$> assoc "clarity" (components report)
    = Some (get (Rubric.f_0_3
                   (get (Rubric.scoring
                           (get (Rubric.cl_filler_words
                                   (get (Rubric.clarity_ rubric) ∅)) ∅)) ∅)) 15).
Proof.
  intros Hwords. unfold run, compute_scores.
  cbv beta iota zeta delta [get_word_count mbind result_bind Py.bind].
  rewrite Hwords. cbn [length].
  destruct (score_salutation _ _) as [[sal_raw sal_fb]|]; [|discriminate].
  destruct (score_keyword_presence _ _ _ _ _ _) as [[kw_raw found] kw_fb].
  destruct (score_flow _ _) as [flow_raw flow_fb].
  assert (Hsr : score_speech_rate 0 duration (get (Rubric.speech_rate_ rubric) ∅)
                = (neutral_rate_score (get (Rubric.speech_rate_ rubric) ∅),
                   Text "Duration not provided; speech rate estimated as neutral.")).
  { unfold score_speech_rate, neutral_rate_score.
    destruct duration as [d|]; [|reflexivity].
    rewrite orb_true_r. reflexivity. }
  rewrite Hsr.
  destruct (sentiment_score _ _) as [s_raw pol].
  intros [= <-]. repeat split; reflexivity.
Qed.

End AggregatorProperties.

(* ===================================================================== *)
(** * The further properties on concrete inputs *)
(* ===================================================================== *)

Lemma enough_matches_ignore_provider_witness :
  score_keyword_presence unit Doubles.encode_down (Doubles.cos_sim 0)
    ["my"; "name"; "age"; "school"] "my name age school" Doubles.sample_keywords
  = score_keyword_presence unit Doubles.encode_up (Doubles.cos_sim 1)
      ["my"; "name"; "age"; "school"] "my name age school" Doubles.sample_keywords.
Proof.
  apply (enough_matches_ignore_provider unit Doubles.encode_up (Doubles.cos_sim 1)).
  unfold few_matches. vm_compute. lia.
Defined.

Lemma no_keywords_scores_zero_witness :
  score_keyword_presence unit Doubles.encode_up (Doubles.cos_sim 1)
    ["my"; "name"] "my name" ∅
  = (0, [], KeywordFeedback [] (SemanticWeak 0)).
Proof. apply no_keywords_scores_zero; reflexivity. Defined.

Lemma semantic_similarity_returns_only_if_witness :
  ["name"; "age"] ≠ [] ∧
  ∃ text_emb,
    Doubles.encode_up "my name" = Ok text_emb ∧
    Forall (fun phrase =>
              ∃ phrase_emb s, Doubles.encode_up phrase = Ok phrase_emb ∧
                              Doubles.cos_sim (7 # 10) text_emb phrase_emb = Ok s)
           ["name"; "age"].
Proof.
  eapply (semantic_similarity_returns_only_if unit Doubles.encode_up
            (Doubles.cos_sim (7 # 10)) "my name" ["name"; "age"]).
  vm_compute. reflexivity.
Defined.

Lemma grammar_score_antitone_witness :
  (grammar_score (fun _ => 3%nat) "b" 50).1 <= (grammar_score (fun _ => 1%nat) "a" 50).1.
Proof.
  apply grammar_score_antitone. apply Nat.leb_le. reflexivity.
Defined.

Lemma grammar_score_extremes_witness :
  (grammar_score (fun _ => 0%nat) "a" 50).1 = 10 ∧
  (grammar_score (fun _ => 5%nat) "a" 50).1 = 2.
Proof.
  split.
  - apply grammar_score_extremes; [discriminate | reflexivity].
  - apply grammar_score_extremes; [discriminate | apply Nat.leb_le; reflexivity].
Defined.

Lemma sentiment_score_monotone_witness :
  (sentiment_score (fun _ => 2 # 10) "a").1 <= (sentiment_score (fun _ => 8 # 10) "b").1.
Proof.
  apply (sentiment_score_monotone (fun _ => 2 # 10) (fun _ => 8 # 10)). discriminate.
Defined.

Lemma report_shape_witness :
  ∃ report,
    Doubles.run (7 # 10) Doubles.transcript (Some 10) (Some Doubles.sample_rubric)
      = Ok report ∧
    word_count report = 8%nat ∧
    ∃ n, filler_count_of report = Some n ∧ (n ≤ word_count report)%nat.
Proof.
  eexists. split; [vm_compute; reflexivity|].
  destruct (report_shape
              Doubles.word_tokenize Doubles.sent_tokenize Doubles.tool_check
              Doubles.polarity_pos unit Doubles.encode_up (Doubles.cos_sim (7 # 10))
              Doubles.no_rubric_file Doubles.transcript (Some 10)
              (Some Doubles.sample_rubric) _ ltac:(vm_compute; reflexivity))
    as (_ & Hwc & _ & _ & Hfill & _).
  split; [rewrite Hwc; reflexivity | exact Hfill].
Defined.

Lemma no_words_fallbacks_witness :
  ∃ report,
    Doubles.run_down "   " (Some 10) (Some Doubles.sample_rubric) = Ok report ∧
    word_count report = 0%nat ∧
    raw <$> subscore report "language_and_grammar" "grammar" = Some 10.
Proof.
  eexists. split; [vm_compute; reflexivity|].
  destruct (no_words_fallbacks
              Doubles.word_tokenize Doubles.sent_tokenize Doubles.tool_check
              Doubles.polarity_pos unit Doubles.encode_down (Doubles.cos_sim 0)
              Doubles.no_rubric_file "   " (Some 10) Doubles.sample_rubric _
              ltac:(reflexivity) ltac:(vm_compute; reflexivity))
    as (Hwc & _ & Hg & _).
  split; [exact Hwc | exact Hg].
Defined.
